(** * Hyundai CAN-FD frame composers (opendbc/car/hyundai/hyundaicanfd.py)

    A shallow embedding of the message composers of [hyundaicanfd.py] and
    the properties its specification states about them.

    Conventions of the model.
    - A Python [dict] of signal values is a [gmap string Q]; a subscript
      [d[k]] that raises [KeyError] is a lookup in [option].
    - Python numbers ([int] and [float]) are rationals [Q], a float being
      given by the exact value of the double; [==] between numbers is
      [Qeq_bool]. Float arithmetic is binary64: the exact result rounded to
      the nearest double, ties to even ([fl]). A result beyond the largest
      double (the code's [inf]) is outside the model.
    - [packer.make_can_msg(name, bus, values)] is the triple it is given:
      the packer is an external collaborator and the composers never look
      at what it returns.
    - [CP.flags & HyundaiFlags.X] is [Z.land] against the mask [X]; the
      masks themselves are declared in [values.py], which is not part of
      this file, so they are section variables. *)

From Stdlib Require Import ZArith QArith Qminmax Qround Qabs Qfield Lia Lqa.
From stdpp Require Import base gmap strings list fin_maps pretty.

Local Open Scope Z_scope.

(** ** Data model *)

Record CarParams := {
  flags : Z;
  openpilotLongitudinalControl : bool;
}.

(** A frame descriptor: message identity, bus id, named-signal values. *)
Record CanMsg := {
  msg_name : string;
  msg_bus : Z;
  msg_values : gmap string Q;
}.

Definition make_can_msg (name : string) (bus : Z) (values : gmap string Q) : CanMsg :=
  {| msg_name := name; msg_bus := bus; msg_values := values |}.

(** Truth value of [flags & mask] in a Python condition. *)
Definition has_flag (fl mask : Z) : bool := negb (Z.land fl mask =? 0).

(** [class CanBus]: [offset] is computed by [CanBusBase.__init__], which
    lives outside this file; it is an input here. *)
Record CanBus := {
  offset : Z;
  _a : Z;
  _e : Z;
  _cam : Z;
}.

Definition ECAN (CAN : CanBus) : Z := _e CAN.
Definition ACAN (CAN : CanBus) : Z := _a CAN.
Definition CAM (CAN : CanBus) : Z := _cam CAN.

(** ** Python helpers *)

(** [{s: d[s] for s in keys}]: the first missing key raises [KeyError]. *)
Fixpoint copy_fields (keys : list string) (d : gmap string Q) : option (gmap string Q) :=
  match keys with
  | [] => Some ∅
  | k :: ks =>
      v ← d !! k;
      rest ← copy_fields ks d;
      Some (<[k := v]> rest)
  end.

(** [d.update({k: v, ...})], the pairs applied in the order written. *)
Definition update (d : gmap string Q) (kvs : list (string * Q)) : gmap string Q :=
  foldl (λ acc kv, <[kv.1 := kv.2]> acc) d kvs.

(** [if cond(d): d.update({k: v, ...})], a guarded overwrite in place. *)
Definition update_if (cond : gmap string Q → bool) (kvs : list (string * Q))
    (d : gmap string Q) : gmap string Q :=
  if cond d then update d kvs else d.

(** [d.get(k) == c]: a missing key gives [None], which equals no number. *)
Definition get_eq (d : gmap string Q) (k : string) (c : Q) : bool :=
  match d !! k with
  | Some v => Qeq_bool v c
  | None => false
  end.

(** [d.get(k) in (c1, ..., cn)]. *)
Definition get_in (d : gmap string Q) (k : string) (cs : list Q) : bool :=
  match d !! k with
  | Some v => existsb (Qeq_bool v) cs
  | None => false
  end.

(** [range(lo, hi)]. *)
Definition range (lo hi : nat) : list nat := seq lo (hi - lo).

(** [round(x)] on a float: to the nearest integer, ties to the even one. *)
Definition py_round (x : Q) : Z :=
  let f := Qfloor x in
  match (x - inject_Z f ?= 1 # 2)%Q with
  | Lt => f
  | Gt => f + 1
  | Eq => if Z.even f then f else f + 1
  end.

(** [x < y] on numbers. *)
Definition Qlt_bool (x y : Q) : bool := negb (Qle_bool y x).

(** [np.clip(x, lo, hi)], that is [minimum(maximum(x, lo), hi)]. *)
Definition np_clip (x lo hi : Q) : Q := Qmin (Qmax x lo) hi.

(** ** Binary64 arithmetic *)

(** The number of smallest subnormals, 2^-1074, in one unit. *)
Definition per_unit : Z := 2 ^ 1074.

(** The exponent of the spacing of the doubles around [u >= 0], with [u]
    and the spacing counted in smallest subnormals: a double has 53
    significant bits, and the subnormals are spaced by one. *)
Definition binade (u : Q) : Z := Z.max (Z.log2 (Qfloor u) - 52) 0.

(** The multiple of that spacing nearest to [u >= 0], ties to the even one. *)
Definition round_grid (u : Q) : Z :=
  let e := binade u in
  py_round (u / inject_Z (2 ^ e)) * 2 ^ e.

Definition fl_abs (x : Q) : Q :=
  (inject_Z (round_grid (x * inject_Z per_unit)) / inject_Z per_unit)%Q.

(** The double nearest to [x], ties to even: what a float operation
    returns for the exact result [x], and what a decimal literal denotes. *)
Definition fl (x : Q) : Q :=
  if Qlt_bool x 0 then (- fl_abs (- x))%Q else fl_abs x.

(** The unit in the last place at [x]: the spacing of the doubles there. *)
Definition ulp (x : Q) : Q :=
  (inject_Z (2 ^ binade (Qabs x * inject_Z per_unit)) / inject_Z per_unit)%Q.

(** [x + y], [x - y], [x * y] and [x / y] on floats. *)
Definition fadd (x y : Q) : Q := fl (x + y).
Definition fsub (x y : Q) : Q := fl (x - y).
Definition fmul (x y : Q) : Q := fl (x * y).
Definition fdiv (x y : Q) : Q := fl (x / y).

Arguments fl : simpl never.
Arguments ulp : simpl never.
Arguments fadd : simpl never.
Arguments fsub : simpl never.
Arguments fmul : simpl never.
Arguments fdiv : simpl never.

(** ** The inputs of the cluster overlay *)

Record HudControl := {
  leftLaneVisible : bool;
  rightLaneVisible : bool;
  leftLaneDepart : bool;
  rightLaneDepart : bool;
  leadVisible : bool;
  leadDistanceBars : Q;
}.

Record CarControl := {
  enabled : bool;
  hudControl : HudControl;
  leftBlinker : bool;
  rightBlinker : bool;
}.

Record CarStateOut := {
  leftBlindspot : bool;
  rightBlindspot : bool;
  vEgo : Q;
  vCruiseCluster : Q;
}.

Record CarState := {
  msg_161 : gmap string Q;
  msg_162 : gmap string Q;
  out : CarStateOut;
  is_metric : bool;
}.

Section Composers.

(** Masks of [HyundaiFlags] (declared in [values.py]) and the conversion
    factor [CV.KPH_TO_MPH] (declared in [common/conversions.py]). *)
Variable CANFD_LKA_STEERING : Z.
Variable CANFD_CAMERA_SCC : Z.
Variable KPH_TO_MPH : Q.
Variable CANFD_LKA_STEERING_ALT : Z.

(** The value [lka_steering] has after the [if lka_steering is None] of
    [CanBus.__init__]. *)
Definition lkaSteeringVariant (CP : option CarParams) (lka_steering : option bool) : bool :=
  match lka_steering with
  | Some b => b
  | None =>
      match CP with
      | Some cp => has_flag (flags cp) CANFD_LKA_STEERING
      | None => false
      end
  end.

(** [CanBus.__init__(CP, fingerprint, lka_steering)]; [busOffset] stands
    for the [self.offset] the base class has set. *)
Definition CanBus_init (CP : option CarParams) (busOffset : Z)
    (lka_steering : option bool) : CanBus :=
  let '(a, e) := if lkaSteeringVariant CP lka_steering then (0, 1) else (1, 0) in
  {| offset := busOffset;
     _a := a + busOffset;
     _e := e + busOffset;
     _cam := 2 + busOffset |}.

(** [f"BYTE{i}"]. *)
Definition byte_key (i : nat) : string := "BYTE" +:+ pretty i.

Definition suppress_msg (lka_steering_alt : bool) : string :=
  if lka_steering_alt then "CAM_0x362" else "CAM_0x2a4".

Definition msg_bytes (lka_steering_alt : bool) : nat :=
  if lka_steering_alt then 32%nat else 24%nat.

Definition create_suppress_lfa (CAN : CanBus) (lfa_block_msg : gmap string Q)
    (lka_steering_alt : bool) : option CanMsg :=
  values ← copy_fields
    (byte_key <$> filter (λ i, i ≠ 7%nat) (range 3 (msg_bytes lka_steering_alt)))
    lfa_block_msg;
  counter ← lfa_block_msg !! "COUNTER";
  let values := <["COUNTER" := counter]> values in
  let values := <["SET_ME_0" := 0%Q]> values in
  let values := <["SET_ME_0_2" := 0%Q]> values in
  let values := <["LEFT_LANE_LINE" := 0%Q]> values in
  let values := <["RIGHT_LANE_LINE" := 0%Q]> values in
  Some (make_can_msg (suppress_msg lka_steering_alt) (ACAN CAN) values).

Definition create_buttons (CP : CarParams) (CAN : CanBus) (cnt btn : Q) : CanMsg :=
  let values := update ∅ [
    ("COUNTER", cnt);
    ("SET_ME_1", 1%Q);
    ("CRUISE_BUTTONS", btn)
  ] in
  let bus := if has_flag (flags CP) CANFD_LKA_STEERING then ECAN CAN else CAM CAN in
  make_can_msg "CRUISE_BUTTONS" bus values.

(** The signals [create_acc_cancel] copies from the cruise-status frame. *)
Definition acc_cancel_fields (camera_scc : bool) : list string :=
  if camera_scc then [
    "COUNTER";
    "CHECKSUM";
    "NEW_SIGNAL_1";
    "MainMode_ACC";
    "ACCMode";
    "ZEROS_9";
    "CRUISE_STANDSTILL";
    "ZEROS_5";
    "DISTANCE_SETTING";
    "VSetDis"
  ] else [
    "COUNTER";
    "CHECKSUM";
    "ACCMode";
    "VSetDis";
    "CRUISE_STANDSTILL"
  ].

Definition create_acc_cancel (CP : CarParams) (CAN : CanBus)
    (cruise_info_copy : gmap string Q) : option CanMsg :=
  values ← copy_fields (acc_cancel_fields (has_flag (flags CP) CANFD_CAMERA_SCC))
    cruise_info_copy;
  let values := update values [
    ("ACCMode", 4%Q);
    ("aReqRaw", 0%Q);
    ("aReqValue", 0%Q)
  ] in
  Some (make_can_msg "SCC_CONTROL" (ECAN CAN) values).

Definition create_ccnc (CAN : CanBus) (CP : CarParams) (CC : CarControl)
    (CS : CarState) (lat_active : bool) : list CanMsg :=
  let msg_161 := msg_161 CS in
  let msg_162 := msg_162 CS in
  let enabled := enabled CC in
  let hud := hudControl CC in
  let msg_162 := foldl (λ m f, <[f := 0%Q]> m) msg_162
    ["FAULT_LSS"; "FAULT_HDA"; "FAULT_DAS"; "FAULT_LFA"; "FAULT_DAW"] in
  let msg_161 :=
    update_if (λ d, get_eq d "ALERTS_3" 17) [("ALERTS_3", 0%Q)] msg_161 in
  let msg_161 :=
    update_if (λ d, get_eq d "ALERTS_5" 2) [("ALERTS_5", 0%Q)] msg_161 in
  let msg_161 :=
    update_if (λ d, get_eq d "ALERTS_5" 4) [("ALERTS_5", 0%Q)] msg_161 in
  let msg_161 :=
    update_if (λ d, get_eq d "ALERTS_5" 5) [("ALERTS_5", 0%Q)] msg_161 in
  let msg_161 :=
    update_if (λ d, get_eq d "ALERTS_2" 5)
      [("ALERTS_2", 0%Q); ("SOUNDS_2", 0%Q)] msg_161 in
  let msg_161 :=
    update_if (λ d, get_eq d "SOUNDS_4" 2 && get_in d "LFA_ICON" [3%Q; 0%Q])
      [("SOUNDS_4", 0%Q)] msg_161 in
  let msg_161 := update msg_161 [
    ("DAW_ICON", 0%Q);
    ("LKA_ICON", 0%Q);
    ("LFA_ICON", if lat_active || enabled then 2%Q else 1%Q);
    ("CENTERLINE", if lat_active || enabled then 1%Q else 0%Q);
    ("LANELINE_LEFT",
      if negb (leftLaneVisible hud) then 1%Q else
      if leftLaneDepart hud then 4%Q else
      if negb (lat_active || enabled) then 0%Q else
      if leftBlindspot (out CS) || Qlt_bool (vEgo (out CS)) 8.94 then 2%Q else 6%Q);
    ("LANELINE_RIGHT",
      if negb (rightLaneVisible hud) then 1%Q else
      if rightLaneDepart hud then 4%Q else
      if negb (lat_active || enabled) then 0%Q else
      if rightBlindspot (out CS) || Qlt_bool (vEgo (out CS)) 8.94 then 2%Q else 6%Q);
    ("LCA_LEFT_ARROW", if leftBlinker CC then 2%Q else 0%Q);
    ("LCA_RIGHT_ARROW", if rightBlinker CC then 2%Q else 0%Q);
    ("LANE_LEFT", if leftBlinker CC then 1%Q else 0%Q);
    ("LANE_RIGHT", if rightBlinker CC then 1%Q else 0%Q)
  ] in
  let msg_162 :=
    update_if (λ _, leftLaneDepart hud || rightLaneDepart hud)
      [("VIBRATE", 1%Q)] msg_162 in
  let '(msg_161, msg_162) :=
    if openpilotLongitudinalControl CP then
      let msg_161 := update msg_161 [
        ("SETSPEED", if enabled then 3%Q else 1%Q);
        ("SETSPEED_HUD", if enabled then 2%Q else 1%Q);
        ("SETSPEED_SPEED",
          let s := py_round (fmul (vCruiseCluster (out CS))
                                  (if is_metric CS then 1%Q else KPH_TO_MPH)) in
          if 100 <? s then 25%Q else inject_Z s);
        ("DISTANCE", leadDistanceBars hud);
        ("DISTANCE_SPACING", if enabled then 1%Q else 0%Q);
        ("DISTANCE_LEAD",
          if enabled && leadVisible hud then 2%Q else if enabled then 1%Q else 0%Q);
        ("DISTANCE_CAR", if enabled then 2%Q else 1%Q);
        ("SLA_ICON", 0%Q)
      ] in
      let msg_161 :=
        update_if (λ d, get_in d "ALERTS_3" [1%Q; 2%Q; 3%Q; 4%Q; 7%Q; 8%Q; 9%Q; 10%Q])
          [("ALERTS_3", 0%Q)] msg_161 in
      let msg_161 :=
        update_if (λ d, get_in d "NAV_ICON" [2%Q; 4%Q]) [("NAV_ICON", 1%Q)] msg_161 in
      let msg_162 := <["LEAD" := 0%Q]> msg_162 in
      (msg_161, msg_162)
    else (msg_161, msg_162) in
  (λ '(msg, data), make_can_msg msg (ECAN CAN) data)
    <$> [("CCNC_0x161", msg_161); ("CCNC_0x162", msg_162)].

(** The optional [cruise_info] of [create_acc_control] carries both
    signals the composer reads from it. *)
Definition cruise_info_ok (cruise_info : option (gmap string Q)) : Prop :=
  match cruise_info with
  | None => True
  | Some ci => is_Some (ci !! "ACC_ObjDist") ∧ is_Some (ci !! "ACC_ObjRelSpd")
  end.

Definition create_acc_control (CAN : CanBus) (enabled : bool) (accel_last accel : Q)
    (stopping gas_override : bool) (set_speed : Q) (hud_control : HudControl)
    (cruise_info : option (gmap string Q)) : option CanMsg :=
  let jerk := 5%Q in
  let jn := fdiv jerk 50 in
  let '(a_raw, a_val) :=
    if negb enabled || gas_override then (0%Q, 0%Q)
    else (accel, np_clip accel (fsub accel_last jn) (fadd accel_last jn)) in
  let values := update ∅ [
    ("ACCMode", if negb enabled then 0%Q else if gas_override then 2%Q else 1%Q);
    ("MainMode_ACC", 1%Q);
    ("StopReq", if stopping then 1%Q else 0%Q);
    ("aReqValue", a_val);
    ("aReqRaw", a_raw);
    ("VSetDis", set_speed);
    ("JerkLowerLimit", if enabled then jerk else 1%Q);
    ("JerkUpperLimit", 3%Q);
    ("ObjValid", 0%Q);
    ("OBJ_STATUS", 2%Q);
    ("SET_ME_2", 4%Q);
    ("SET_ME_3", 3%Q);
    ("SET_ME_TMP_64", 100%Q);
    ("DISTANCE_SETTING", leadDistanceBars hud_control)
  ] in
  extra ←
    match cruise_info with
    | None => Some [("ACC_ObjDist", 1%Q)]
    | Some ci =>
        dist ← ci !! "ACC_ObjDist";
        spd ← ci !! "ACC_ObjRelSpd";
        Some [("ACC_ObjDist", dist); ("ACC_ObjRelSpd", spd)]
    end;
  Some (make_can_msg "SCC_CONTROL" (ECAN CAN) (update values extra)).

Definition create_fca_warning_light (CAN : CanBus) (frame : Z) : list CanMsg :=
  let ret := [] in
  let ret :=
    if frame mod 2 =? 0 then
      ret ++ [make_can_msg "ADRV_0x160" (ECAN CAN) (update ∅ [
        ("AEB_SETTING", 1%Q);
        ("SET_ME_2", 2%Q);
        ("SET_ME_FF", 255%Q);
        ("SET_ME_FC", 252%Q);
        ("SET_ME_9", 9%Q)
      ])]
    else ret in
  ret.

Definition create_adrv_messages (CAN : CanBus) (frame : Z) : list CanMsg :=
  let ret := [] in
  let ret := ret ++ [make_can_msg "ADRV_0x51" (ACAN CAN) ∅] in
  let ret := ret ++ create_fca_warning_light CAN frame in
  let ret :=
    if frame mod 5 =? 0 then
      let ret := ret ++ [make_can_msg "ADRV_0x1ea" (ECAN CAN) (update ∅ [
        ("SET_ME_1C", 28%Q);
        ("SET_ME_FF", 255%Q);
        ("SET_ME_TMP_F", 15%Q);
        ("SET_ME_TMP_F_2", 15%Q)
      ])] in
      ret ++ [make_can_msg "ADRV_0x200" (ECAN CAN) (update ∅ [
        ("SET_ME_E1", 225%Q);
        ("SET_ME_3A", 58%Q)
      ])]
    else ret in
  let ret :=
    if frame mod 20 =? 0 then
      ret ++ [make_can_msg "ADRV_0x345" (ECAN CAN) (update ∅ [("SET_ME_15", 21%Q)])]
    else ret in
  let ret :=
    if frame mod 100 =? 0 then
      ret ++ [make_can_msg "ADRV_0x1da" (ECAN CAN) (update ∅ [
        ("SET_ME_22", 34%Q);
        ("SET_ME_41", 65%Q)
      ])]
    else ret in
  ret.

Definition create_steering_messages (CP : CarParams) (CAN : CanBus)
    (enabled lat_active : bool) (apply_torque : Q) : list CanMsg :=
  let common_values := update ∅ [
    ("LKA_MODE", 2%Q);
    ("LKA_ICON", if enabled then 2%Q else 1%Q);
    ("TORQUE_REQUEST", apply_torque);
    ("LKA_ASSIST", 0%Q);
    ("STEER_REQ", if lat_active then 1%Q else 0%Q);
    ("STEER_MODE", 0%Q);
    ("HAS_LANE_SAFETY", 0%Q);
    ("NEW_SIGNAL_2", 0%Q)
  ] in
  (* [copy.copy]: each variant overwrites a copy of its own *)
  let lkas_values := <["LKA_AVAILABLE" := 0%Q]> common_values in
  let lfa_values := <["NEW_SIGNAL_1" := 0%Q]> common_values in
  let ret := [] in
  if has_flag (flags CP) CANFD_LKA_STEERING then
    let lkas_msg :=
      if has_flag (flags CP) CANFD_LKA_STEERING_ALT then "LKAS_ALT" else "LKAS" in
    let ret :=
      if openpilotLongitudinalControl CP
      then ret ++ [make_can_msg "LFA" (ECAN CAN) lfa_values]
      else ret in
    ret ++ [make_can_msg lkas_msg (ACAN CAN) lkas_values]
  else
    ret ++ [make_can_msg "LFA" (ECAN CAN) lfa_values].

Definition create_lfahda_cluster (CAN : CanBus) (enabled : bool) : CanMsg :=
  let values := update ∅ [
    ("HDA_ICON", if enabled then 1%Q else 0%Q);
    ("LFA_ICON", if enabled then 2%Q else 0%Q)
  ] in
  make_can_msg "LFAHDA_CLUSTER" (ECAN CAN) values.

(** [frame] is accepted and never read. *)
Definition create_spas_messages (CAN : CanBus) (frame : Z)
    (left_blink right_blink : bool) : list CanMsg :=
  let ret := [] in
  let ret := ret ++ [make_can_msg "SPAS1" (ECAN CAN) ∅] in
  let blink := 0%Q in
  let blink := if left_blink then 3%Q else if right_blink then 4%Q else blink in
  let values := update ∅ [("BLINKER_CONTROL", blink)] in
  let ret := ret ++ [make_can_msg "SPAS2" (ECAN CAN) values] in
  ret.

End Composers.

(** ** Notions of the specification *)

(** The request clamped to the interval [[lo, hi]], as the specification of
    the accel shaper words it. *)
Definition clamped_to (lo hi x : Q) : Q :=
  if Qlt_bool x lo then lo else if Qlt_bool hi x then hi else x.

(** Number of frames called [name] in a list of frames. *)
Definition count_msg (name : string) (msgs : list CanMsg) : nat :=
  length (filter (λ m, msg_name m = name) msgs).

(** The frames of the cycles [0 .. n-1] of the cadence multiplexer. *)
Definition adrv_cycles (CAN : CanBus) (n : nat) : list CanMsg :=
  mjoin (create_adrv_messages CAN <$> (Z.of_nat <$> seq 0 n)).

(** The frames of [len] consecutive cycles starting at cycle [start]. *)
Definition adrv_window (CAN : CanBus) (start : Z) (len : nat) : list CanMsg :=
  mjoin (create_adrv_messages CAN <$> seqZ start (Z.of_nat len)).

(** A displayed code with the codes of [codes] replaced by [blank]. *)
Definition suppress_codes (codes : list Q) (blank v : Q) : Q :=
  if existsb (Qeq_bool v) codes then blank else v.

(** The signals of page A that [create_ccnc] may overwrite. *)
Definition ccnc_161_overlaid (longitudinal : bool) : list string :=
  ["ALERTS_3"; "ALERTS_5"; "ALERTS_2"; "SOUNDS_2"; "SOUNDS_4";
   "DAW_ICON"; "LKA_ICON"; "LFA_ICON"; "CENTERLINE";
   "LANELINE_LEFT"; "LANELINE_RIGHT";
   "LCA_LEFT_ARROW"; "LCA_RIGHT_ARROW"; "LANE_LEFT"; "LANE_RIGHT"] ++
  (if longitudinal
   then ["SETSPEED"; "SETSPEED_HUD"; "SETSPEED_SPEED"; "DISTANCE";
         "DISTANCE_SPACING"; "DISTANCE_LEAD"; "DISTANCE_CAR"; "SLA_ICON";
         "NAV_ICON"]
   else []).

(** The signals of page B that [create_ccnc] may overwrite. *)
Definition ccnc_162_overlaid : list string :=
  ["FAULT_LSS"; "FAULT_HDA"; "FAULT_DAS"; "FAULT_LFA"; "FAULT_DAW";
   "VIBRATE"; "LEAD"].

(** The signal names of the frame [create_suppress_lfa] builds. *)
Definition suppress_lfa_signals (lka_steering_alt : bool) : list string :=
  (byte_key <$> filter (λ i, i ≠ 7%nat) (range 3 (msg_bytes lka_steering_alt))) ++
  ["COUNTER"; "SET_ME_0"; "SET_ME_0_2"; "LEFT_LANE_LINE"; "RIGHT_LANE_LINE"].

(** ** Sample inputs *)

Definition sample_CAN : CanBus := CanBus_init 1 None 0 (Some false).

Definition sample_hud : HudControl :=
  {| leftLaneVisible := true; rightLaneVisible := true;
     leftLaneDepart := false; rightLaneDepart := false;
     leadVisible := true; leadDistanceBars := 2 |}.

Definition sample_CC : CarControl :=
  {| enabled := true; hudControl := sample_hud;
     leftBlinker := false; rightBlinker := false |}.

Definition sample_CP : CarParams :=
  {| flags := 8; openpilotLongitudinalControl := true |}.

(** A value for [CV.KPH_TO_MPH]; the metric car state below never uses it. *)
Definition sample_KPH_TO_MPH : Q := 0.621371.

(** A metric car state; [v] is the cruise speed shown by the cluster. *)
Definition sample_CS (v : Q) : CarState :=
  {| msg_161 := ∅; msg_162 := ∅;
     out := {| leftBlindspot := false; rightBlindspot := false;
               vEgo := 20; vCruiseCluster := v |};
     is_metric := true |}.

(** A camera lane-assist snapshot carrying [BYTE0 .. BYTE31] and a counter. *)
Definition sample_lfa_block_msg : gmap string Q :=
  <["COUNTER" := 9%Q]>
    (list_to_map ((λ i, (byte_key i, inject_Z (Z.of_nat i))) <$> seq 0 32)).

(** An imperial car state. *)
Definition sample_CS_imperial (v : Q) : CarState :=
  {| msg_161 := ∅; msg_162 := ∅;
     out := {| leftBlindspot := false; rightBlindspot := false;
               vEgo := 20; vCruiseCluster := v |};
     is_metric := false |}.

(** The doubles written 0.2 and 4.02336, and the double 1/1.609344. *)
Definition double_0_2 : Q := 3602879701896397 # 18014398509481984.
Definition double_4_02336 : Q := 1132475162298585 # 281474976710656.
Definition double_kph_to_mph : Q := 1399203534909409 # 2251799813685248.


(** A standalone-radar car: the camera-SCC bit (8 in the samples) is clear. *)
Definition sample_CP_radar : CarParams :=
  {| flags := 0; openpilotLongitudinalControl := true |}.

(** A cruise-status snapshot for [create_acc_control]: the two object
    signals and a stale acceleration request besides. *)
Definition sample_cruise_status : gmap string Q :=
  list_to_map [("ACC_ObjDist", 40%Q); ("ACC_ObjRelSpd", (-2)%Q); ("aReqValue", 9%Q)].

(** A cruise-status snapshot carrying every signal either variant copies. *)
Definition sample_cruise_info : gmap string Q :=
  list_to_map ((λ k, (k, 7%Q)) <$> acc_cancel_fields true).

(** ** Lemmas on the Python helpers *)

Lemma update_cons d k v kvs : update d ((k, v) :: kvs) = update (<[k := v]> d) kvs.
Proof. reflexivity. Qed.

(** [update] is the left-biased union with the map of the pairs, the later
    pairs taking precedence. *)
Lemma update_union d kvs : update d kvs = list_to_map (reverse kvs) ∪ d.
Proof.
  revert d. induction kvs as [|[k v] kvs IH]; intros d.
  - change (d = ∅ ∪ d). by rewrite (left_id_L ∅ (∪)).
  - rewrite update_cons, IH, reverse_cons, list_to_map_app. simpl.
    rewrite insert_empty, <- (assoc_L (∪)).
    by rewrite <- insert_union_singleton_l.
Qed.

Lemma lookup_update_Some d kvs k v :
  (list_to_map (reverse kvs) : gmap string Q) !! k = Some v →
  update d kvs !! k = Some v.
Proof. intros H. rewrite update_union. by apply lookup_union_Some_l. Qed.

Lemma lookup_update_None d kvs k :
  (list_to_map (reverse kvs) : gmap string Q) !! k = None →
  update d kvs !! k = d !! k.
Proof. intros H. rewrite update_union. by apply lookup_union_r. Qed.

(** A guarded overwrite leaves the keys it does not list alone. *)
Lemma lookup_update_if_None cond (d : gmap string Q) kvs k :
  (list_to_map (reverse kvs) : gmap string Q) !! k = None →
  update_if cond kvs d !! k = d !! k.
Proof.
  intros H. unfold update_if. destruct (cond d); [by apply lookup_update_None | done].
Qed.

(** The comprehension succeeds exactly when every key is present, and its
    result is the source restricted to the keys. *)
Lemma copy_fields_Some keys d :
  (∀ k, k ∈ keys → is_Some (d !! k)) →
  ∃ r, copy_fields keys d = Some r ∧
       (∀ k, k ∈ keys → r !! k = d !! k) ∧
       (∀ k, k ∉ keys → r !! k = None).
Proof.
  induction keys as [|k ks IH]; intros Hin; simpl.
  - exists ∅. split; [done|]. split; intros k Hk; [by apply elem_of_nil in Hk | done].
  - destruct (Hin k) as [v Hv]; [left|].
    destruct IH as (r & Hr & Hcopy & Hout).
    { intros k' Hk'. apply Hin. by right. }
    rewrite Hv, Hr. simpl. eexists; split; [done|]. split.
    + intros k' Hk'. destruct (decide (k = k')) as [->|Hne].
      * by rewrite lookup_insert_eq.
      * rewrite lookup_insert_ne by done. apply Hcopy.
        apply elem_of_cons in Hk' as [?|?]; [congruence | done].
    + intros k' Hk'. apply not_elem_of_cons in Hk' as [Hne Hk'].
      rewrite lookup_insert_ne by done. by apply Hout.
Qed.

Lemma copy_fields_None keys d k :
  k ∈ keys → d !! k = None → copy_fields keys d = None.
Proof.
  induction keys as [|k' ks IH]; intros Hin Hk.
  - by apply elem_of_nil in Hin.
  - simpl. destruct (d !! k') as [v|] eqn:Hv; [|done]. simpl.
    apply elem_of_cons in Hin as [->|Hin]; [congruence|].
    by rewrite IH.
Qed.

(** ** Lemmas on numbers *)

Lemma Qlt_bool_true x y : Qlt_bool x y = true ↔ (x < y)%Q.
Proof.
  unfold Qlt_bool. rewrite negb_true_iff, <- not_true_iff_false, Qle_bool_iff.
  split; [apply Qnot_le_lt | apply Qlt_not_le].
Qed.

Lemma Qlt_bool_false x y : Qlt_bool x y = false ↔ (y <= x)%Q.
Proof. unfold Qlt_bool. by rewrite negb_false_iff, Qle_bool_iff. Qed.

Lemma np_clip_between x lo hi : (lo <= hi)%Q → (lo <= np_clip x lo hi <= hi)%Q.
Proof.
  intros Hle. unfold np_clip. split.
  - apply Q.min_glb; [apply Q.le_max_r | done].
  - apply Q.le_min_r.
Qed.

Lemma np_clip_clamped_to x lo hi :
  (lo <= hi)%Q → (np_clip x lo hi == clamped_to lo hi x)%Q.
Proof.
  intros Hle. unfold np_clip, clamped_to.
  destruct (Qlt_bool x lo) eqn:Hlo.
  - apply Qlt_bool_true in Hlo.
    rewrite (Q.max_r x lo) by (by apply Qlt_le_weak).
    by rewrite Q.min_l.
  - apply Qlt_bool_false in Hlo. rewrite (Q.max_l x lo) by done.
    destruct (Qlt_bool hi x) eqn:Hhi.
    + apply Qlt_bool_true in Hhi. rewrite Q.min_r; [done | by apply Qlt_le_weak].
    + apply Qlt_bool_false in Hhi. by rewrite Q.min_l.
Qed.

Lemma clamped_to_proper lo lo' hi hi' x :
  (lo == lo')%Q → (hi == hi')%Q → (clamped_to lo hi x == clamped_to lo' hi' x)%Q.
Proof.
  intros Hlo Hhi. unfold clamped_to.
  destruct (Qlt_bool x lo) eqn:H1, (Qlt_bool x lo') eqn:H2,
           (Qlt_bool hi x) eqn:H3, (Qlt_bool hi' x) eqn:H4;
    rewrite ?Qlt_bool_true, ?Qlt_bool_false in *; lra.
Qed.

(** ** Lemmas on [round] and on binary64 rounding *)

Lemma py_round_near x :
  (inject_Z (py_round x) - (1 # 2) <= x <= inject_Z (py_round x) + (1 # 2))%Q.
Proof.
  unfold py_round.
  pose proof (Qfloor_le x) as Hlo. pose proof (Qlt_floor x) as Hhi.
  rewrite inject_Z_plus in Hhi. change (inject_Z 1) with 1%Q in Hhi.
  destruct (x - inject_Z (Qfloor x) ?= 1 # 2)%Q eqn:Hc.
  - apply Qeq_alt in Hc.
    destruct (Z.even (Qfloor x)); rewrite ?inject_Z_plus;
      change (inject_Z 1) with 1%Q; split; lra.
  - apply Qlt_alt in Hc. split; lra.
  - apply Qgt_alt in Hc. rewrite inject_Z_plus.
    change (inject_Z 1) with 1%Q. split; lra.
Qed.

Lemma py_round_integer x n : (x == inject_Z n)%Q → py_round x = n.
Proof.
  intros Hx. unfold py_round.
  assert (Qfloor x = n) as -> by (by rewrite Hx, Qfloor_Z).
  destruct (x - inject_Z n ?= 1 # 2)%Q eqn:Hc; [|done|].
  - apply Qeq_alt in Hc. lra.
  - apply Qgt_alt in Hc. lra.
Qed.

Lemma py_round_comp x y : (x == y)%Q → py_round x = py_round y.
Proof.
  intros H. unfold py_round.
  assert (Qfloor x = Qfloor y) as -> by (by rewrite H).
  assert ((x - inject_Z (Qfloor y) ?= 1 # 2) = (y - inject_Z (Qfloor y) ?= 1 # 2))%Q
    as -> by (by rewrite H).
  reflexivity.
Qed.

Lemma py_round_mono x y : (x <= y)%Q → py_round x ≤ py_round y.
Proof.
  intros Hxy. pose proof (Qfloor_resp_le _ _ Hxy) as Hf.
  assert (∀ t, Qfloor t ≤ py_round t ≤ Qfloor t + 1) as Hbetween.
  { intros t. unfold py_round.
    destruct (t - inject_Z (Qfloor t) ?= 1 # 2)%Q; [destruct (Z.even _)|..]; lia. }
  destruct (Z.eq_dec (Qfloor x) (Qfloor y)) as [Heq|Hne].
  - unfold py_round. rewrite Heq.
    destruct (x - inject_Z (Qfloor y) ?= 1 # 2)%Q eqn:Hx,
             (y - inject_Z (Qfloor y) ?= 1 # 2)%Q eqn:Hy;
      rewrite <- ?Qeq_alt, <- ?Qlt_alt, <- ?Qgt_alt in *;
      try (destruct (Z.even (Qfloor y))); try lia; exfalso; lra.
  - pose proof (Hbetween x). pose proof (Hbetween y). lia.
Qed.

Lemma pow2_pos e : 0 ≤ e → (0 < inject_Z (2 ^ e))%Q.
Proof.
  intros He. change 0%Q with (inject_Z 0). rewrite <- Zlt_Qlt.
  by apply Z.pow_pos_nonneg.
Qed.

Lemma binade_nonneg u : 0 ≤ binade u.
Proof. unfold binade. lia. Qed.

Lemma binade_comp u v : (u == v)%Q → binade u = binade v.
Proof. intros H. unfold binade. by rewrite H. Qed.

Lemma binade_mono u v : (u <= v)%Q → binade u ≤ binade v.
Proof.
  intros H. unfold binade.
  pose proof (Z.log2_le_mono _ _ (Qfloor_resp_le _ _ H)). lia.
Qed.

Lemma Qfloor_nonneg u : (0 <= u)%Q → 0 ≤ Qfloor u.
Proof. intros H. apply (Qfloor_resp_le 0 u) in H. exact H. Qed.

(** [u] lies below the top of its binade... *)
Lemma binade_upper u : (0 <= u)%Q → (u < inject_Z (2 ^ (binade u + 53)))%Q.
Proof.
  intros Hu. pose proof (Qfloor_nonneg u Hu) as Ha.
  pose proof (binade_nonneg u) as He.
  assert (Qfloor u + 1 ≤ 2 ^ (binade u + 53)) as Hle.
  { destruct (Z.eq_dec (Qfloor u) 0) as [->|Hne].
    - pose proof (Z.pow_pos_nonneg 2 (binade u + 53)). lia.
    - pose proof (Z.log2_spec (Qfloor u)) as [_ Hlt]; [lia|].
      assert (2 ^ Z.succ (Z.log2 (Qfloor u)) ≤ 2 ^ (binade u + 53)).
      { apply Z.pow_le_mono_r; [lia|]. unfold binade. lia. }
      lia. }
  eapply Qlt_le_trans; [apply Qlt_floor|]. by rewrite <- Zle_Qle.
Qed.

(** ... and, unless the binade is that of the subnormals, above its bottom. *)
Lemma binade_lower u : 0 < binade u → (inject_Z (2 ^ (binade u + 52)) <= u)%Q.
Proof.
  intros He. unfold binade in *.
  assert (0 < Z.log2 (Qfloor u)) as Hlog by lia.
  assert (0 < Qfloor u) as Ha.
  { destruct (Z.lt_ge_cases 0 (Qfloor u)) as [|Hle]; [done|].
    rewrite (Z.log2_nonpos _ Hle) in Hlog. lia. }
  pose proof (Z.log2_spec _ Ha) as [Hlo _].
  replace (Z.max (Z.log2 (Qfloor u) - 52) 0 + 52) with (Z.log2 (Qfloor u)) by lia.
  eapply Qle_trans; [|apply Qfloor_le]. by rewrite <- Zle_Qle.
Qed.

Lemma Qdiv_le_mono u v c : (0 < c)%Q → (u <= v)%Q → (u / c <= v / c)%Q.
Proof.
  intros Hc Huv. apply Qle_shift_div_l; [done|].
  unfold Qdiv. rewrite <- Qmult_assoc, (Qmult_comm (/ c)), Qmult_inv_r, Qmult_1_r;
    [done|]. intros H0. rewrite H0 in Hc. by apply Qlt_irrefl in Hc.
Qed.

Lemma round_grid_comp u v : (u == v)%Q → round_grid u = round_grid v.
Proof.
  intros H. unfold round_grid. rewrite (binade_comp _ _ H).
  f_equal. apply py_round_comp. by rewrite H.
Qed.

Lemma round_grid_upper u : (0 <= u)%Q → round_grid u ≤ 2 ^ (binade u + 53).
Proof.
  intros Hu. unfold round_grid. cbv zeta.
  pose proof (binade_nonneg u) as He.
  pose proof (pow2_pos _ He) as Hc.
  assert (py_round (u / inject_Z (2 ^ binade u)) ≤ 2 ^ 53) as Hm.
  { apply (Z.le_trans _ (py_round (inject_Z (2 ^ 53))));
      [|by rewrite (py_round_integer _ (2 ^ 53))].
    apply py_round_mono. apply Qle_shift_div_r; [done|].
    rewrite <- inject_Z_mult, <- Z.pow_add_r by lia.
    rewrite (Z.add_comm 53). by apply Qlt_le_weak, binade_upper. }
  rewrite (Z.add_comm _ 53), Z.pow_add_r by lia.
  apply Z.mul_le_mono_nonneg_r; [|done].
  apply Z.lt_le_incl, Z.pow_pos_nonneg; lia.
Qed.

Lemma round_grid_lower u : 0 < binade u → 2 ^ (binade u + 52) ≤ round_grid u.
Proof.
  intros He. unfold round_grid. cbv zeta.
  assert (0 ≤ binade u) as He' by lia.
  pose proof (pow2_pos _ He') as Hc.
  assert (2 ^ 52 ≤ py_round (u / inject_Z (2 ^ binade u))) as Hm.
  { apply (Z.le_trans _ (py_round (inject_Z (2 ^ 52))));
      [by rewrite (py_round_integer _ (2 ^ 52))|].
    apply py_round_mono. apply Qle_shift_div_l; [done|].
    rewrite <- inject_Z_mult, <- Z.pow_add_r by lia.
    rewrite (Z.add_comm 52). by apply binade_lower. }
  rewrite (Z.add_comm _ 52), Z.pow_add_r by lia.
  apply Z.mul_le_mono_nonneg_r; [|done].
  apply Z.lt_le_incl, Z.pow_pos_nonneg; lia.
Qed.

Lemma round_grid_nonneg u : (0 <= u)%Q → 0 ≤ round_grid u.
Proof.
  intros Hu. unfold round_grid. cbv zeta.
  pose proof (pow2_pos _ (binade_nonneg u)) as Hc.
  apply Z.mul_nonneg_nonneg; [|apply Z.lt_le_incl, Z.pow_pos_nonneg;
                                [lia | apply binade_nonneg]].
  apply (Z.le_trans _ (py_round 0)); [by rewrite (py_round_integer 0 0)|].
  apply py_round_mono. apply Qle_shift_div_l; [done|]. by rewrite Qmult_0_l.
Qed.

Lemma round_grid_mono u v : (0 <= u)%Q → (u <= v)%Q → round_grid u ≤ round_grid v.
Proof.
  intros Hu Huv.
  pose proof (binade_mono _ _ Huv) as He.
  pose proof (binade_nonneg u) as He0.
  destruct (Z.eq_dec (binade u) (binade v)) as [Heq|Hne].
  - unfold round_grid. cbv zeta. rewrite Heq.
    apply Z.mul_le_mono_nonneg_r.
    + apply Z.lt_le_incl, Z.pow_pos_nonneg; [lia | apply binade_nonneg].
    + apply py_round_mono, Qdiv_le_mono; [|done].
      apply pow2_pos, binade_nonneg.
  - pose proof (round_grid_upper u Hu) as Hup.
    pose proof (round_grid_lower v) as Hlo.
    assert (2 ^ (binade u + 53) ≤ 2 ^ (binade v + 52))
      by (apply Z.pow_le_mono_r; lia).
    lia.
Qed.

Lemma per_unit_pos : (0 < inject_Z per_unit)%Q.
Proof. by apply (pow2_pos 1074). Qed.

Lemma fl_abs_nonneg x : (0 <= x)%Q → (0 <= fl_abs x)%Q.
Proof.
  intros Hx. unfold fl_abs. apply Qle_shift_div_l; [apply per_unit_pos|].
  rewrite Qmult_0_l. change 0%Q with (inject_Z 0). rewrite <- Zle_Qle.
  apply round_grid_nonneg, Qmult_le_0_compat; [done|].
  apply Qlt_le_weak, per_unit_pos.
Qed.

Lemma fl_abs_mono x y : (0 <= x)%Q → (x <= y)%Q → (fl_abs x <= fl_abs y)%Q.
Proof.
  intros Hx Hxy. unfold fl_abs. apply Qdiv_le_mono; [apply per_unit_pos|].
  rewrite <- Zle_Qle. apply round_grid_mono.
  - apply Qmult_le_0_compat; [done | apply Qlt_le_weak, per_unit_pos].
  - apply Qmult_le_compat_r; [done | apply Qlt_le_weak, per_unit_pos].
Qed.

Lemma fl_abs_comp x y : (x == y)%Q → (fl_abs x == fl_abs y)%Q.
Proof.
  intros H. unfold fl_abs.
  by rewrite (round_grid_comp (x * inject_Z per_unit) (y * inject_Z per_unit))
    by (by rewrite H).
Qed.

Instance fl_comp : Proper (Qeq ==> Qeq) fl.
Proof.
  intros x y H. unfold fl, Qlt_bool. rewrite H.
  destruct (Qle_bool 0 y); simpl; [by apply fl_abs_comp|].
  apply Qopp_comp, fl_abs_comp. by rewrite H.
Qed.

(** Rounding to the nearest double is monotone. *)
Lemma fl_mono x y : (x <= y)%Q → (fl x <= fl y)%Q.
Proof.
  intros Hxy. unfold fl.
  destruct (Qlt_bool x 0) eqn:Hx, (Qlt_bool y 0) eqn:Hy;
    rewrite ?Qlt_bool_true, ?Qlt_bool_false in *.
  - apply Qopp_le_compat, fl_abs_mono; lra.
  - pose proof (fl_abs_nonneg (- x)). pose proof (fl_abs_nonneg y). lra.
  - lra.
  - by apply fl_abs_mono.
Qed.

Lemma fl_abs_error x :
  (0 <= x)%Q →
  (Qabs (fl_abs x - x)
   <= inject_Z (2 ^ binade (x * inject_Z per_unit)) / inject_Z per_unit / 2)%Q.
Proof.
  intros Hx. unfold fl_abs, round_grid. cbv zeta.
  pose proof per_unit_pos as HP.
  set (P := inject_Z per_unit) in *.
  set (e := binade (x * P)).
  pose proof (pow2_pos e (binade_nonneg _)) as Hc.
  rewrite inject_Z_mult.
  set (c := inject_Z (2 ^ e)) in *.
  pose proof (py_round_near (x * P / c)) as [Hlo Hhi].
  set (m := inject_Z (py_round (x * P / c))) in *.
  set (k := (c / P)%Q).
  assert (0 < k)%Q as Hk.
  { apply Qlt_shift_div_l; [done|]. by rewrite Qmult_0_l. }
  assert (m * c / P == m * k)%Q as -> by (unfold k; field; lra).
  assert (x == x * P / c * k)%Q as Hxk by (unfold k; field; lra).
  set (t := (x * P / c)%Q) in *.
  apply (Qmult_le_compat_r _ _ k) in Hlo; [|lra].
  apply (Qmult_le_compat_r _ _ k) in Hhi; [|lra].
  clearbody t m k. clear e c Hc.
  assert (k / 2 == k * (1 # 2))%Q as -> by field.
  apply Qabs_Qle_condition. split; lra.
Qed.

(** A rounded value is within half a unit in the last place of the exact one. *)
Lemma fl_error x : (Qabs (fl x - x) <= ulp x / 2)%Q.
Proof.
  unfold fl, ulp.
  destruct (Qlt_bool x 0) eqn:Hx; rewrite ?Qlt_bool_true, ?Qlt_bool_false in *.
  - rewrite (binade_comp (Qabs x * inject_Z per_unit) (- x * inject_Z per_unit))
      by (by rewrite Qabs_neg by lra).
    assert (- fl_abs (- x) - x == - (fl_abs (- x) - - x))%Q as -> by ring.
    rewrite Qabs_opp. apply fl_abs_error. lra.
  - rewrite (binade_comp (Qabs x * inject_Z per_unit) (x * inject_Z per_unit))
      by (by rewrite Qabs_pos).
    by apply fl_abs_error.
Qed.

(** Half a unit in the last place is at most 2^-53 of the magnitude, or
    2^-1075 in the subnormal range. *)
Lemma ulp_bound x :
  (ulp x * inject_Z (2 ^ 52) <= Qabs x)%Q ∨ (ulp x == 1 / inject_Z per_unit)%Q.
Proof.
  unfold ulp. pose proof per_unit_pos as HP.
  set (P := inject_Z per_unit) in *. set (u := (Qabs x * P)%Q).
  destruct (Z.eq_dec (binade u) 0) as [->|Hne]; [by right|left].
  pose proof (binade_nonneg u) as He.
  pose proof (binade_lower u) as Hlo.
  rewrite Z.pow_add_r, inject_Z_mult in Hlo by lia.
  set (c := inject_Z (2 ^ binade u)) in *. set (d := inject_Z (2 ^ 52)) in *.
  apply (Qmult_lt_0_le_reg_r _ _ P); [done|].
  assert (c / P * d * P == c * d)%Q as -> by (field; lra).
  apply Hlo. lia.
Qed.

(** Integers of at most 53 bits are doubles. *)
Lemma fl_integer n : Z.abs n < 2 ^ 53 → (fl (inject_Z n) == inject_Z n)%Q.
Proof.
  assert (∀ k, 0 ≤ k < 2 ^ 53 → (fl_abs (inject_Z k) == inject_Z k)%Q) as Habs.
  { intros k [Hk0 Hk]. unfold fl_abs.
    pose proof per_unit_pos as HP.
    assert (round_grid (inject_Z k * inject_Z per_unit) = k * per_unit) as ->.
    { rewrite (round_grid_comp _ (inject_Z (k * per_unit)))
        by (by rewrite inject_Z_mult).
      unfold round_grid, binade. cbv zeta. rewrite Qfloor_Z.
      set (e := Z.max (Z.log2 (k * per_unit) - 52) 0).
      assert (0 ≤ e ≤ 1074) as He.
      { subst e. destruct (Z.eq_dec k 0) as [->|Hne]; [by vm_compute|].
        unfold per_unit. rewrite Z.log2_mul_pow2 by lia.
        assert (Z.log2 k < 53) by (apply Z.log2_lt_pow2; lia). lia. }
      assert (per_unit = 2 ^ (1074 - e) * 2 ^ e) as HPe.
      { unfold per_unit. rewrite <- Z.pow_add_r by lia. f_equal. lia. }
      rewrite (py_round_integer _ (k * 2 ^ (1074 - e))).
      - rewrite HPe. ring.
      - rewrite HPe at 1. rewrite !inject_Z_mult.
        pose proof (pow2_pos e (proj1 He)). field. lra. }
    rewrite inject_Z_mult. field. lra. }
  intros Hn. unfold fl.
  destruct (Qlt_bool (inject_Z n) 0) eqn:Hs;
    rewrite ?Qlt_bool_true, ?Qlt_bool_false in Hs;
    change 0%Q with (inject_Z 0) in Hs;
    rewrite <- ?Zlt_Qlt, <- ?Zle_Qle in Hs.
  - rewrite <- inject_Z_opp, Habs by lia. rewrite inject_Z_opp. ring.
  - apply Habs. lia.
Qed.

(** The per-cycle step of the shaper, [5 / 50] as a float: the double
    nearest to 0.1, slightly above it. *)
Lemma jerk_per_cycle :
  (fdiv 5 50 == 3602879701896397 # 36028797018963968)%Q ∧
  (fdiv 5 50 == fl 0.1)%Q ∧ (0.1 < fdiv 5 50)%Q.
Proof. by vm_compute. Qed.

(** ** Bus topology resolver *)

(** C4. For every harness configuration and bus offset the camera bus
    ([ACAN]) and the ECU bus ([ECAN]) differ; one of them is
    [0 + busOffset] and the other [1 + busOffset], the camera bus taking
    [1 + busOffset] on the plain harness and [0 + busOffset] on the
    LKA-steering harness; the relay bus ([CAM]) is [2 + busOffset]. *)
Theorem bus_topology_invariant (LKA : Z) (CP : option CarParams) (busOffset : Z)
    (lka_steering : option bool) :
  let CAN := CanBus_init LKA CP busOffset lka_steering in
  ACAN CAN ≠ ECAN CAN ∧
  ((ACAN CAN = 0 + busOffset ∧ ECAN CAN = 1 + busOffset) ∨
   (ECAN CAN = 0 + busOffset ∧ ACAN CAN = 1 + busOffset)) ∧
  (if lkaSteeringVariant LKA CP lka_steering
   then ACAN CAN = 0 + busOffset ∧ ECAN CAN = 1 + busOffset
   else ACAN CAN = 1 + busOffset ∧ ECAN CAN = 0 + busOffset) ∧
  CAM CAN = 2 + busOffset.
Proof.
  unfold CanBus_init, ACAN, ECAN, CAM.
  destruct (lkaSteeringVariant LKA CP lka_steering); simpl.
  - repeat split; [lia | by left].
  - repeat split; [lia | by right].
Qed.

(** ** Cruise-button composer *)

(** C10. The single CRUISE_BUTTONS frame goes to the ECU bus when the
    LKA-steering flag is set in [CP.flags] and to the relay bus, whose id
    is [2 + busOffset], otherwise; its SET_ME_1 signal is 1 and the counter
    and button signals are the arguments. *)
Theorem create_buttons_routing (LKA : Z) (CP : CarParams) (CP0 : option CarParams)
    (busOffset : Z) (lka_steering : option bool) (cnt btn : Q) :
  let CAN := CanBus_init LKA CP0 busOffset lka_steering in
  let m := create_buttons LKA CP CAN cnt btn in
  msg_name m = "CRUISE_BUTTONS" ∧
  msg_bus m = (if has_flag (flags CP) LKA then ECAN CAN else CAM CAN) ∧
  CAM CAN = 2 + busOffset ∧
  msg_values m !! "SET_ME_1" = Some 1%Q ∧
  msg_values m !! "COUNTER" = Some cnt ∧
  msg_values m !! "CRUISE_BUTTONS" = Some btn.
Proof.
  simpl. repeat split.
  unfold CanBus_init, CAM. by destruct (lkaSteeringVariant LKA CP0 lka_steering).
Qed.

(** ** Accel-command composer *)

(** With a well-formed [cruise_info] the composer returns a frame: the
    fixed signals followed by the object signals. *)
Lemma create_acc_control_extra cruise_info :
  cruise_info_ok cruise_info →
  ∃ extra,
    match cruise_info with
    | None => Some [("ACC_ObjDist", 1%Q)]
    | Some ci =>
        dist ← ci !! "ACC_ObjDist";
        spd ← ci !! "ACC_ObjRelSpd";
        Some [("ACC_ObjDist", dist); ("ACC_ObjRelSpd", spd)]
    end = Some extra ∧
    ∀ k, k ≠ "ACC_ObjDist" → k ≠ "ACC_ObjRelSpd" →
         (list_to_map (reverse extra) : gmap string Q) !! k = None.
Proof.
  destruct cruise_info as [ci|]; simpl.
  - intros [[dist Hd] [spd Hs]]. rewrite Hd, Hs. simpl.
    eexists; split; [done|]. intros k H1 H2.
    change (reverse [("ACC_ObjDist", dist); ("ACC_ObjRelSpd", spd)])
      with [("ACC_ObjRelSpd", spd); ("ACC_ObjDist", dist)].
    simpl. by rewrite !lookup_insert_ne.
  - intros _. eexists; split; [done|]. intros k H1 _.
    change (reverse [("ACC_ObjDist", 1%Q)]) with [("ACC_ObjDist", 1%Q)].
    simpl. by rewrite lookup_insert_ne.
Qed.

Ltac acc_control_returns :=
  cbn [mbind option_bind];
  eexists; split; [reflexivity|]; cbn [msg_values make_can_msg].

(** Unfolds the composer down to the frame it returns; [tac] settles the
    branch of the shaper first. *)
Ltac acc_control_frame H tac :=
  unfold create_acc_control;
  destruct (create_acc_control_extra _ H) as (extra & -> & Hextra);
  tac; acc_control_returns.

Ltac acc_control_lookup Hextra :=
  rewrite lookup_update_None by (by apply Hextra); reflexivity.

(** C5. When automation is disabled or the driver overrides with the
    accelerator, the frame is produced and both acceleration signals,
    aReqRaw and aReqValue, are zero whatever the request and the previous
    shaped value are. *)
Theorem acc_control_forced_zero (CAN : CanBus) (enabled : bool) (accel_last accel : Q)
    (stopping gas_override : bool) (set_speed : Q) (hud_control : HudControl)
    (cruise_info : option (gmap string Q)) :
  cruise_info_ok cruise_info →
  enabled = false ∨ gas_override = true →
  ∃ m, create_acc_control CAN enabled accel_last accel stopping gas_override
         set_speed hud_control cruise_info = Some m ∧
       msg_values m !! "aReqRaw" = Some 0%Q ∧
       msg_values m !! "aReqValue" = Some 0%Q.
Proof.
  intros Hok Hoff.
  assert (negb enabled || gas_override = true) as Hc.
  { destruct Hoff as [-> | ->]; [done | by rewrite orb_true_r]. }
  acc_control_frame Hok ltac:(rewrite Hc).
  split; acc_control_lookup Hextra.
Qed.

(** C3 (as the code has it). While enabled and not overridden, the frame
    is produced, aReqRaw is the request itself, and the shaped signal
    aReqValue is the request clamped to the interval from
    [previous - j] to [previous + j], where [j] is [5 / 50] and the two
    bounds are computed in binary64. It is therefore within [j] of the
    previous value up to the rounding of a bound, which is at most half a
    unit in the last place of [previous - j] or [previous + j]. *)
Theorem acc_control_rate_limit (CAN : CanBus) (accel_last accel : Q)
    (stopping : bool) (set_speed : Q) (hud_control : HudControl)
    (cruise_info : option (gmap string Q)) :
  cruise_info_ok cruise_info →
  let jn := fdiv 5 50 in
  let lo := fsub accel_last jn in
  let hi := fadd accel_last jn in
  ∃ m,
    create_acc_control CAN true accel_last accel stopping false
      set_speed hud_control cruise_info = Some m ∧
    msg_values m !! "aReqRaw" = Some accel ∧
    ∃ shaped,
    msg_values m !! "aReqValue" = Some shaped ∧
    (lo <= hi)%Q ∧
    (shaped == clamped_to lo hi accel)%Q ∧
    (lo <= shaped <= hi)%Q ∧
    (Qabs (shaped - accel_last)
     <= jn + Qmax (ulp (accel_last - jn)) (ulp (accel_last + jn)) / 2)%Q.
Proof.
  intros Hok jn lo hi. acc_control_frame Hok ltac:(cbn [negb orb]).
  split; [acc_control_lookup Hextra|].
  exists (np_clip accel lo hi).
  split; [acc_control_lookup Hextra|].
  pose proof (proj2 (proj2 jerk_per_cycle)) as Hjn. fold jn in Hjn.
  assert (lo <= hi)%Q as Hle by (apply fl_mono; lra).
  pose proof (np_clip_between accel _ _ Hle) as [Hlo Hhi].
  split; [exact Hle|]. split; [exact (np_clip_clamped_to _ _ _ Hle)|].
  split; [exact (conj Hlo Hhi)|].
  pose proof (fl_error (accel_last - jn)) as Helo.
  pose proof (fl_error (accel_last + jn)) as Hehi.
  fold (fsub accel_last jn) in Helo. fold (fadd accel_last jn) in Hehi.
  fold lo in Helo. fold hi in Hehi.
  apply Qabs_Qle_condition in Helo, Hehi.
  pose proof (Q.le_max_l (ulp (accel_last - jn)) (ulp (accel_last + jn))) as Hml.
  pose proof (Q.le_max_r (ulp (accel_last - jn)) (ulp (accel_last + jn))) as Hmr.
  set (shaped := np_clip accel lo hi) in *.
  set (ulo := ulp (accel_last - jn)) in *. set (uhi := ulp (accel_last + jn)) in *.
  set (umax := Qmax ulo uhi) in *.
  clearbody shaped ulo uhi umax lo hi jn.
  assert (ulo / 2 == ulo * (1 # 2))%Q as Elo by field.
  assert (uhi / 2 == uhi * (1 # 2))%Q as Ehi by field.
  assert (umax / 2 == umax * (1 # 2))%Q as Emax by field.
  rewrite Elo in Helo. rewrite Ehi in Hehi. rewrite Emax.
  apply Qabs_Qle_condition. split; lra.
Qed.

(** C9 (as the code has it). The frame is produced and its upper jerk
    limit is the constant 3 for every input; the lower jerk limit is 5
    while enabled and 1 otherwise, whatever the other inputs are. *)
Theorem acc_control_jerk_limits (CAN : CanBus) (enabled : bool) (accel_last accel : Q)
    (stopping gas_override : bool) (set_speed : Q) (hud_control : HudControl)
    (cruise_info : option (gmap string Q)) :
  cruise_info_ok cruise_info →
  ∃ m, create_acc_control CAN enabled accel_last accel stopping gas_override
         set_speed hud_control cruise_info = Some m ∧
       msg_values m !! "JerkUpperLimit" = Some 3%Q ∧
       msg_values m !! "JerkLowerLimit" = Some (if enabled then 5%Q else 1%Q).
Proof.
  intros Hok.
  acc_control_frame Hok ltac:(destruct (negb enabled || gas_override));
    (split; acc_control_lookup Hextra).
Qed.

(** ** Cancel-command composer *)

Instance byte_key_inj : Inj (=) (=) byte_key.
Proof.
  intros i j H. unfold byte_key in H. simpl in H.
  injection H as H. by apply pretty_nat_inj in H.
Qed.

(** C2 (as the code has it). The standalone-radar variant copies 5 signals
    and the camera-based variant 10, the former all among the latter.
    Given a snapshot carrying the signals of its variant, the composer
    returns a frame whose copied signals other than ACCMode are those of
    the snapshot, whose ACCMode is 4 and acceleration signals 0, and which
    carries nothing else. *)
Theorem acc_cancel_copied_fields (SCC : Z) (CP : CarParams) (CAN : CanBus)
    (cruise_info_copy : gmap string Q) :
  let fields := acc_cancel_fields (has_flag (flags CP) SCC) in
  (∀ k, k ∈ fields → is_Some (cruise_info_copy !! k)) →
  length (acc_cancel_fields false) = 5%nat ∧
  length (acc_cancel_fields true) = 10%nat ∧
  acc_cancel_fields false ⊆ acc_cancel_fields true ∧
  ∃ m, create_acc_cancel SCC CP CAN cruise_info_copy = Some m ∧
       msg_name m = "SCC_CONTROL" ∧ msg_bus m = ECAN CAN ∧
       (∀ k, k ∈ fields → k ≠ "ACCMode" →
             msg_values m !! k = cruise_info_copy !! k) ∧
       msg_values m !! "ACCMode" = Some 4%Q ∧
       msg_values m !! "aReqRaw" = Some 0%Q ∧
       msg_values m !! "aReqValue" = Some 0%Q ∧
       (∀ k, k ∉ fields → k ≠ "aReqRaw" → k ≠ "aReqValue" →
             msg_values m !! k = None).
Proof.
  intros fields Hin. split; [done|]. split; [done|]. split.
  { compute_done. }
  destruct (copy_fields_Some _ _ Hin) as (r & Hr & Hcopy & Hout).
  unfold create_acc_cancel. fold fields. rewrite Hr. simpl.
  eexists. split; [reflexivity|]. simpl. repeat split.
  - intros k Hk Hne. rewrite <- Hcopy by done.
    assert (k ≠ "aReqRaw" ∧ k ≠ "aReqValue") as [? ?].
    { subst fields. destruct (has_flag _ _); simpl in Hk;
        rewrite ?elem_of_cons, elem_of_nil in Hk; destruct_or!; by subst. }
    by rewrite !lookup_insert_ne.
  - by rewrite !lookup_insert_ne, lookup_insert_eq by done.
  - by rewrite lookup_insert_ne, lookup_insert_eq by done.
  - by rewrite lookup_insert_eq.
  - intros k Hk H1 H2.
    assert (k ≠ "ACCMode").
    { intros ->. apply Hk. subst fields. destruct (has_flag _ _); set_solver. }
    rewrite !lookup_insert_ne by done. by apply Hout.
Qed.

(** ** Camera-message suppressor *)

Lemma suppress_keys_elem alt i :
  byte_key i ∈ byte_key <$> filter (λ i, i ≠ 7%nat) (range 3 (msg_bytes alt)) ↔
  (3 ≤ i < msg_bytes alt)%nat ∧ i ≠ 7%nat.
Proof.
  rewrite (list_elem_of_fmap_inj byte_key), list_elem_of_filter.
  unfold range. rewrite elem_of_seq.
  destruct alt; simpl; lia.
Qed.

Lemma byte_key_not_overridden i :
  byte_key i ≠ "COUNTER" ∧ byte_key i ≠ "SET_ME_0" ∧ byte_key i ≠ "SET_ME_0_2" ∧
  byte_key i ≠ "LEFT_LANE_LINE" ∧ byte_key i ≠ "RIGHT_LANE_LINE".
Proof. unfold byte_key. simpl. by repeat split. Qed.

(** C6. Given a snapshot carrying the counter and the data bytes of the
    variant's range, the suppressor returns a frame on the camera bus in
    which every data byte [BYTEi], [3 <= i < msg_bytes], [i <> 7], and the
    rolling counter are those of the snapshot, the two reserved-constant
    signals and the two lane-line signals are zero, and [BYTE7] is absent. *)
Theorem suppress_lfa_frame (CAN : CanBus) (lfa_block_msg : gmap string Q)
    (lka_steering_alt : bool) :
  (∀ i, (3 ≤ i < msg_bytes lka_steering_alt)%nat → i ≠ 7%nat →
        is_Some (lfa_block_msg !! byte_key i)) →
  is_Some (lfa_block_msg !! "COUNTER") →
  ∃ m, create_suppress_lfa CAN lfa_block_msg lka_steering_alt = Some m ∧
       msg_name m = (if lka_steering_alt then "CAM_0x362" else "CAM_0x2a4") ∧
       msg_bus m = ACAN CAN ∧
       (∀ i, (3 ≤ i < msg_bytes lka_steering_alt)%nat → i ≠ 7%nat →
             msg_values m !! byte_key i = lfa_block_msg !! byte_key i) ∧
       msg_values m !! "COUNTER" = lfa_block_msg !! "COUNTER" ∧
       msg_values m !! "SET_ME_0" = Some 0%Q ∧
       msg_values m !! "SET_ME_0_2" = Some 0%Q ∧
       msg_values m !! "LEFT_LANE_LINE" = Some 0%Q ∧
       msg_values m !! "RIGHT_LANE_LINE" = Some 0%Q ∧
       msg_values m !! byte_key 7 = None.
Proof.
  intros Hbytes [counter Hcounter].
  destruct (copy_fields_Some
    (byte_key <$> filter (λ i, i ≠ 7%nat) (range 3 (msg_bytes lka_steering_alt)))
    lfa_block_msg) as (r & Hr & Hcopy & Hout).
  { intros k Hk. apply list_elem_of_fmap_1 in Hk as (i & -> & Hi).
    apply list_elem_of_filter in Hi as [Hne Hi].
    unfold range in Hi. apply elem_of_seq in Hi.
    apply Hbytes; [destruct lka_steering_alt; simpl in *; lia | done]. }
  unfold create_suppress_lfa. rewrite Hr, Hcounter. simpl.
  eexists. split; [reflexivity|]. simpl. repeat split.
  - intros i Hi Hne.
    destruct (byte_key_not_overridden i) as (? & ? & ? & ? & ?).
    rewrite !lookup_insert_ne by done.
    apply Hcopy. by apply suppress_keys_elem.
  - by rewrite !lookup_insert_ne, lookup_insert_eq by done.
  - by rewrite !lookup_insert_ne, lookup_insert_eq by done.
  - by rewrite !lookup_insert_ne, lookup_insert_eq by done.
  - by rewrite lookup_insert_ne, lookup_insert_eq by done.
  - by rewrite lookup_insert_eq.
  - destruct (byte_key_not_overridden 7) as (? & ? & ? & ? & ?).
    rewrite !lookup_insert_ne by done. apply Hout.
    rewrite suppress_keys_elem. lia.
Qed.

(** ** Cluster/HUD overlay *)

(** Reads a signal through the guarded and plain overwrites stacked on a
    snapshot, down to the overwrite that sets it. *)
Ltac overlay_lookup :=
  repeat first
    [ rewrite lookup_update_if_None by reflexivity
    | rewrite lookup_update_None by reflexivity ];
  apply lookup_update_Some; reflexivity.

(** The two pages the overlay returns, and the signals of page A that the
    properties below are about, as the code computes them. *)
Lemma create_ccnc_pages (K : Q) (CAN : CanBus) (CP : CarParams) (CC : CarControl)
    (CS : CarState) (lat_active : bool) :
  let hud := hudControl CC in
  let active := lat_active || enabled CC in
  let slow := Qlt_bool (vEgo (out CS)) 8.94 in
  let s := py_round (fmul (vCruiseCluster (out CS)) (if is_metric CS then 1%Q else K)) in
  ∃ page_a page_b,
    create_ccnc K CAN CP CC CS lat_active = [page_a; page_b] ∧
    msg_name page_a = "CCNC_0x161" ∧ msg_name page_b = "CCNC_0x162" ∧
    msg_bus page_a = ECAN CAN ∧ msg_bus page_b = ECAN CAN ∧
    msg_values page_a !! "LANELINE_LEFT" = Some
      (if negb (leftLaneVisible hud) then 1%Q else
       if leftLaneDepart hud then 4%Q else
       if negb active then 0%Q else
       if leftBlindspot (out CS) || slow then 2%Q else 6%Q) ∧
    msg_values page_a !! "LANELINE_RIGHT" = Some
      (if negb (rightLaneVisible hud) then 1%Q else
       if rightLaneDepart hud then 4%Q else
       if negb active then 0%Q else
       if rightBlindspot (out CS) || slow then 2%Q else 6%Q) ∧
    (openpilotLongitudinalControl CP = true →
     msg_values page_a !! "SETSPEED_SPEED" = Some
       (if 100 <? s then 25%Q else inject_Z s)).
Proof.
  intros hud active slow s. unfold create_ccnc.
  destruct (openpilotLongitudinalControl CP); cbv zeta;
    cbn [fmap list_fmap]; unfold make_can_msg;
    do 2 eexists; (split; [reflexivity|]); cbn [msg_name msg_bus msg_values];
    do 4 (split; [reflexivity|]).
  - split; [|split]; [| |intros _]; overlay_lookup.
  - split; [|split]; [| |discriminate]; overlay_lookup.
Qed.


(** C1 (as the code has it). When this stack owns longitudinal control,
    page A carries in SETSPEED_SPEED the cruise speed converted in binary64
    and rounded, unchanged as long as it is at most 100, and the fixed
    value 25 when it exceeds 100. *)
Theorem ccnc_setspeed_speed (K : Q) (CAN : CanBus) (CP : CarParams)
    (CC : CarControl) (CS : CarState) (lat_active : bool) :
  openpilotLongitudinalControl CP = true →
  let s := py_round (fmul (vCruiseCluster (out CS)) (if is_metric CS then 1%Q else K)) in
  ∃ page_a page_b,
    create_ccnc K CAN CP CC CS lat_active = [page_a; page_b] ∧
    msg_name page_a = "CCNC_0x161" ∧
    (100 < s → msg_values page_a !! "SETSPEED_SPEED" = Some 25%Q) ∧
    (s ≤ 100 → msg_values page_a !! "SETSPEED_SPEED" = Some (inject_Z s)).
Proof.
  intros Hlong s.
  destruct (create_ccnc_pages K CAN CP CC CS lat_active)
    as (page_a & page_b & Hpages & Hname & _ & _ & _ & _ & _ & Hspeed).
  exists page_a, page_b. split; [done|]. split; [done|].
  rewrite (Hspeed Hlong). fold s. split; intros Hs.
  - by rewrite (proj2 (Z.ltb_lt 100 s) Hs).
  - by rewrite (proj2 (Z.ltb_ge 100 s) Hs).
Qed.

(** ** Cadence multiplexer *)

(** What one cycle emits: the keep-alive on the camera bus always, the
    fault light on even cycles, and the static frames on the multiples of
    5, 20 and 100, all of those on the ECU bus. *)
Lemma adrv_messages_cycle (CAN : CanBus) (frame : Z) :
  let msgs := create_adrv_messages CAN frame in
  let every (d : Z) : nat := if frame mod d =? 0 then 1%nat else 0%nat in
  count_msg "ADRV_0x51" msgs = 1%nat ∧
  count_msg "ADRV_0x160" msgs = every 2 ∧
  count_msg "ADRV_0x1ea" msgs = every 5 ∧
  count_msg "ADRV_0x200" msgs = every 5 ∧
  count_msg "ADRV_0x345" msgs = every 20 ∧
  count_msg "ADRV_0x1da" msgs = every 100 ∧
  (∀ m, m ∈ msgs →
        msg_bus m = (if decide (msg_name m = "ADRV_0x51") then ACAN CAN else ECAN CAN)).
Proof.
  unfold create_adrv_messages, create_fca_warning_light. cbv zeta.
  destruct (frame mod 2 =? 0), (frame mod 5 =? 0), (frame mod 20 =? 0),
    (frame mod 100 =? 0); cbn [app]; (repeat split; [..|]); try reflexivity;
    intros m Hm; rewrite ?elem_of_cons, elem_of_nil in Hm;
    destruct_or!; by subst.
Qed.

(** C8. Over the cycles 0 to 99 the keep-alive frame is emitted 100 times,
    the fault-light frame 50 times, each of the two 5-multiple frames 20
    times, the 20-multiple frame 5 times and the 100-multiple frame once;
    every keep-alive is on the camera bus and every other frame on the ECU
    bus. *)
Theorem adrv_cadence_counts (CAN : CanBus) :
  let msgs := adrv_cycles CAN 100 in
  count_msg "ADRV_0x51" msgs = 100%nat ∧
  count_msg "ADRV_0x160" msgs = 50%nat ∧
  count_msg "ADRV_0x1ea" msgs = 20%nat ∧
  count_msg "ADRV_0x200" msgs = 20%nat ∧
  count_msg "ADRV_0x345" msgs = 5%nat ∧
  count_msg "ADRV_0x1da" msgs = 1%nat ∧
  length msgs = 196%nat ∧
  Forall (λ m, msg_bus m =
               if decide (msg_name m = "ADRV_0x51") then ACAN CAN else ECAN CAN) msgs.
Proof.
  cbv zeta. repeat split; try (vm_compute; reflexivity).
  apply Forall_forall. intros m Hm. unfold adrv_cycles in Hm.
  apply list_elem_of_join in Hm as (l & Hm & Hl).
  apply list_elem_of_fmap_1 in Hl as (frame & -> & _).
  by apply (adrv_messages_cycle CAN frame).
Qed.

(** ** Concrete runs *)

Example py_round_ties :
  py_round 0.5 = 0 ∧ py_round 1.5 = 2 ∧ py_round 2.5 = 2 ∧
  py_round (-0.5) = 0 ∧ py_round (-1.5) = -2 ∧ py_round 100.4 = 100 ∧
  py_round 100.6 = 101.
Proof. by vm_compute. Qed.

(** Binary64 rounding on known values: the doubles written 0.1 and 0.3,
    the classic sum 0.1 + 0.2, a tie broken to even, a sum absorbed at
    2^50, the smallest subnormal, and the spacing of the doubles at 0.3. *)
Example fl_examples :
  (fl 0.1 == 3602879701896397 # 36028797018963968)%Q ∧
  (fl 0.3 == 5404319552844595 # 18014398509481984)%Q ∧
  (fadd (fl 0.1) (fl 0.2) == 1351079888211149 # 4503599627370496)%Q ∧
  (fl (inject_Z 9007199254740993) == inject_Z 9007199254740992)%Q ∧
  (fadd (inject_Z (2 ^ 50)) (fl 0.1) == inject_Z (2 ^ 50))%Q ∧
  (fl ((1 # (2 ^ 1075)) + (1 # (2 ^ 1080))) == 1 # (2 ^ 1074))%Q ∧
  (fl (- 0.1) == - fl 0.1)%Q ∧
  (ulp 0.3 == 1 # (2 ^ 54))%Q.
Proof. by vm_compute. Qed.

(** The end-to-end example of the shaper: request 2.0 from a previous
    shaped value 0.0 gives the double 0.1. *)
Example acc_control_example :
  ∃ m, create_acc_control sample_CAN true 0 2 false false 30 sample_hud None = Some m ∧
       ∃ shaped, msg_values m !! "aReqValue" = Some shaped ∧ (shaped == fl 0.1)%Q.
Proof. eexists. split; [reflexivity|]. eexists. split; [reflexivity|]. by vm_compute. Qed.

(** The imperial conversion rounds the binary64 product: the doubles
    4.02336 and 1/1.609344 multiply to 2.5 exactly, shown as 2, where the
    exact product lies above 2.5. *)
Example ccnc_setspeed_rounds_float_product :
  (fl 4.02336 == double_4_02336)%Q ∧
  (fdiv 1 (fl 1.609344) == double_kph_to_mph)%Q ∧
  (fmul double_4_02336 double_kph_to_mph == 2.5)%Q ∧
  (2.5 < double_4_02336 * double_kph_to_mph)%Q ∧
  ∃ page_a page_b,
    create_ccnc double_kph_to_mph sample_CAN sample_CP sample_CC
      (sample_CS_imperial double_4_02336) true = [page_a; page_b] ∧
    msg_values page_a !! "SETSPEED_SPEED" = Some 2%Q.
Proof.
  do 4 (split; [by vm_compute|]).
  do 2 eexists. split; [reflexivity|]. by vm_compute.
Qed.

Lemma acc_control_forced_zero_witness :
  cruise_info_ok None ∧ (false = false ∨ false = true) ∧
  ∃ m, create_acc_control sample_CAN false 0 2 false false 30 sample_hud None = Some m ∧
       msg_values m !! "aReqRaw" = Some 0%Q ∧
       msg_values m !! "aReqValue" = Some 0%Q.
Proof.
  split; [exact I|]. split; [by left|].
  apply (acc_control_forced_zero sample_CAN false 0 2 false false 30 sample_hud None);
    [exact I | by left].
Defined.

Lemma acc_control_rate_limit_witness :
  cruise_info_ok None ∧
  ∃ m, create_acc_control sample_CAN true double_0_2 2 false false 30 sample_hud None
         = Some m ∧
       msg_values m !! "aReqRaw" = Some 2%Q ∧
       ∃ shaped, msg_values m !! "aReqValue" = Some shaped ∧
                 (fsub double_0_2 (fdiv 5 50) <= fadd double_0_2 (fdiv 5 50))%Q ∧
                 (shaped == clamped_to (fsub double_0_2 (fdiv 5 50))
                                       (fadd double_0_2 (fdiv 5 50)) 2)%Q ∧
                 (fsub double_0_2 (fdiv 5 50) <= shaped
                  <= fadd double_0_2 (fdiv 5 50))%Q ∧
                 (Qabs (shaped - double_0_2)
                  <= fdiv 5 50 + Qmax (ulp (double_0_2 - fdiv 5 50))
                                      (ulp (double_0_2 + fdiv 5 50)) / 2)%Q.
Proof.
  split; [exact I|].
  apply (acc_control_rate_limit sample_CAN double_0_2 2 false 30 sample_hud None).
  exact I.
Defined.

(** C3, refuted as stated: from the previous value 0.2 (a double) the
    request 2.0 is shaped to 0.30000000000000004, which is further than
    0.1, and further than the double 5/50, from the previous value, and is
    not the request clamped to [[previous - 0.1, previous + 0.1]]. *)
Lemma acc_control_rate_limit_exceeded :
  (fl 0.2 == double_0_2)%Q ∧ (fl double_0_2 == double_0_2)%Q ∧
  ∃ m shaped,
    create_acc_control sample_CAN true double_0_2 2 false false 30 sample_hud None
      = Some m ∧
    msg_values m !! "aReqValue" = Some shaped ∧
    (shaped == 1351079888211149 # 4503599627370496)%Q ∧
    ¬ (Qabs (shaped - double_0_2) <= 0.1)%Q ∧
    ¬ (Qabs (shaped - double_0_2) <= 5 / 50)%Q ∧
    ¬ (Qabs (shaped - double_0_2) <= fdiv 5 50)%Q ∧
    ¬ (shaped == clamped_to (double_0_2 - 0.1) (double_0_2 + 0.1) 2)%Q.
Proof.
  do 2 (split; [by vm_compute|]).
  do 2 eexists. split; [reflexivity|]. split; [reflexivity|].
  split; [by vm_compute|]. repeat split; by vm_compute.
Qed.

Lemma acc_control_jerk_limits_witness :
  cruise_info_ok None ∧
  ∃ m, create_acc_control sample_CAN true 0 2 false false 30 sample_hud None = Some m ∧
       msg_values m !! "JerkUpperLimit" = Some 3%Q ∧
       msg_values m !! "JerkLowerLimit" = Some 5%Q.
Proof.
  split; [exact I|].
  apply (acc_control_jerk_limits sample_CAN true 0 2 false false 30 sample_hud None).
  exact I.
Defined.

(** C9, refuted as stated: no pair of constants is held by the two jerk
    limits on every input, since the lower limit is 5 on an enabled cycle
    and 1 on a disabled one. *)
Lemma acc_control_jerk_lower_not_fixed :
  ¬ ∃ lower upper : Q, ∀ enabled gas_override : bool,
      ∃ m, create_acc_control sample_CAN enabled 0 2 false gas_override 30
             sample_hud None = Some m ∧
           msg_values m !! "JerkLowerLimit" = Some lower ∧
           msg_values m !! "JerkUpperLimit" = Some upper.
Proof.
  intros (lower & upper & H).
  destruct (H true false) as (m1 & E1 & L1 & _).
  destruct (H false false) as (m2 & E2 & L2 & _).
  injection E1 as <-. injection E2 as <-.
  vm_compute in L1, L2. congruence.
Qed.

Lemma sample_cruise_info_fields k :
  k ∈ acc_cancel_fields true → is_Some (sample_cruise_info !! k).
Proof.
  intros Hk. simpl in Hk. rewrite ?elem_of_cons, elem_of_nil in Hk.
  destruct_or!; subst; by eexists.
Qed.

Lemma acc_cancel_copied_fields_witness :
  (∀ k, k ∈ acc_cancel_fields (has_flag (flags sample_CP) 8) →
        is_Some (sample_cruise_info !! k)) ∧
  ∃ m, create_acc_cancel 8 sample_CP sample_CAN sample_cruise_info = Some m ∧
       msg_values m !! "DISTANCE_SETTING" = sample_cruise_info !! "DISTANCE_SETTING" ∧
       msg_values m !! "ACCMode" = Some 4%Q.
Proof.
  split; [exact sample_cruise_info_fields|].
  destruct (acc_cancel_copied_fields 8 sample_CP sample_CAN sample_cruise_info
              sample_cruise_info_fields)
    as (_ & _ & _ & m & Hm & _ & _ & Hcopy & Hmode & _).
  exists m. split; [exact Hm|]. split; [|exact Hmode].
  apply Hcopy; [|done]. vm_compute. set_solver.
Defined.

(** C2, refuted as stated: the camera-based variant copies 10 signals and
    the standalone-radar variant 5, so the camera-based subset is not the
    shorter one; the frames built from one snapshot have 12 and 7 signals. *)
Lemma acc_cancel_camera_subset_not_shorter :
  has_flag (flags sample_CP) 8 = true ∧
  has_flag (flags sample_CP_radar) 8 = false ∧
  ¬ (length (acc_cancel_fields (has_flag (flags sample_CP) 8)) <
     length (acc_cancel_fields (has_flag (flags sample_CP_radar) 8)))%nat ∧
  (size ∘ msg_values <$> create_acc_cancel 8 sample_CP sample_CAN sample_cruise_info)
    = Some 12%nat ∧
  (size ∘ msg_values <$> create_acc_cancel 8 sample_CP_radar sample_CAN sample_cruise_info)
    = Some 7%nat.
Proof. vm_compute. repeat split; lia. Qed.

Lemma sample_lfa_block_msg_bytes i :
  (3 ≤ i < msg_bytes true)%nat → i ≠ 7%nat →
  is_Some (sample_lfa_block_msg !! byte_key i).
Proof.
  intros [_ Hi] _. simpl in Hi.
  do 32 (destruct i as [|i]; [by eexists|]). lia.
Qed.

Lemma suppress_lfa_frame_witness :
  is_Some (sample_lfa_block_msg !! "COUNTER") ∧
  ∃ m, create_suppress_lfa sample_CAN sample_lfa_block_msg true = Some m ∧
       msg_name m = "CAM_0x362" ∧ msg_bus m = 1 ∧
       msg_values m !! "BYTE31" = Some 31%Q ∧
       msg_values m !! "COUNTER" = Some 9%Q ∧
       msg_values m !! "LEFT_LANE_LINE" = Some 0%Q ∧
       msg_values m !! "BYTE7" = None.
Proof.
  assert (is_Some (sample_lfa_block_msg !! "COUNTER")) as Hcounter by (by eexists).
  split; [exact Hcounter|].
  destruct (suppress_lfa_frame sample_CAN sample_lfa_block_msg true
              sample_lfa_block_msg_bytes Hcounter)
    as (m & Hm & Hname & Hbus & Hbytes & Hcnt & _ & _ & Hleft & _ & H7).
  exists m. split; [exact Hm|]. split; [exact Hname|]. split; [exact Hbus|].
  split; [|split; [exact Hcnt|split; [exact Hleft|exact H7]]].
  apply (Hbytes 31%nat); simpl; lia.
Defined.


Lemma ccnc_setspeed_speed_witness :
  openpilotLongitudinalControl sample_CP = true ∧
  py_round (fmul 60 1) ≤ 100 ∧
  ∃ page_a page_b,
    create_ccnc sample_KPH_TO_MPH sample_CAN sample_CP sample_CC (sample_CS 60) true
      = [page_a; page_b] ∧
    msg_values page_a !! "SETSPEED_SPEED" = Some 60%Q.
Proof.
  assert (py_round (fmul 60 1) ≤ 100) as Hs by (by vm_compute).
  split; [reflexivity|]. split; [exact Hs|].
  destruct (ccnc_setspeed_speed sample_KPH_TO_MPH sample_CAN sample_CP sample_CC
              (sample_CS 60) true eq_refl)
    as (page_a & page_b & Hpages & _ & _ & Hle).
  exists page_a, page_b. split; [exact Hpages|]. exact (Hle Hs).
Defined.

(** C1, refuted as stated: on a metric car with a cluster cruise speed of
    101 the rounded converted value is 101, above 100, and SETSPEED_SPEED
    is 25, not 100. *)
Lemma ccnc_setspeed_speed_not_capped :
  py_round (fmul (vCruiseCluster (out (sample_CS 101))) 1) = 101 ∧
  ∃ page_a page_b,
    create_ccnc sample_KPH_TO_MPH sample_CAN sample_CP sample_CC (sample_CS 101) true
      = [page_a; page_b] ∧
    msg_values page_a !! "SETSPEED_SPEED" = Some 25%Q ∧
    msg_values page_a !! "SETSPEED_SPEED" ≠ Some 100%Q ∧
    ¬ (25 == 100)%Q.
Proof.
  split; [by vm_compute|].
  do 2 eexists. split; [reflexivity|].
  split; [by vm_compute|]. split; [by vm_compute|]. by vm_compute.
Qed.

(** * Further properties of the composers *)

(** ** Bus roles and the frames routed by them *)

(** The three roles take the three consecutive ids from [busOffset] on, so
    no two roles ever share a bus. *)
Theorem can_bus_ids_consecutive (LKA : Z) (CP : option CarParams) (busOffset : Z)
    (lka_steering : option bool) :
  let CAN := CanBus_init LKA CP busOffset lka_steering in
  ACAN CAN ≠ CAM CAN ∧ ECAN CAN ≠ CAM CAN ∧ ACAN CAN ≠ ECAN CAN ∧
  ACAN CAN + ECAN CAN + CAM CAN = 3 * busOffset + 3 ∧
  busOffset ≤ ACAN CAN ≤ busOffset + 1 ∧
  busOffset ≤ ECAN CAN ≤ busOffset + 1.
Proof.
  unfold CanBus_init, ACAN, ECAN, CAM.
  destruct (lkaSteeringVariant LKA CP lka_steering); simpl; lia.
Qed.

(** A bus object built from the car's own parameters sends the cruise
    buttons to bus [1 + busOffset] on the LKA-steering harness and to bus
    [2 + busOffset] otherwise; however the bus object was built, the button
    frame never goes to the camera bus. *)
Theorem create_buttons_bus (LKA : Z) (CP : CarParams) (CP0 : option CarParams)
    (busOffset : Z) (lka_steering : option bool) (cnt btn : Q) :
  msg_bus (create_buttons LKA CP (CanBus_init LKA (Some CP) busOffset None) cnt btn)
    = (if has_flag (flags CP) LKA then 1 + busOffset else 2 + busOffset) ∧
  msg_bus (create_buttons LKA CP (CanBus_init LKA CP0 busOffset lka_steering) cnt btn)
    ≠ ACAN (CanBus_init LKA CP0 busOffset lka_steering).
Proof.
  unfold create_buttons, CanBus_init, ACAN, ECAN, CAM. simpl. split.
  - by destruct (has_flag (flags CP) LKA).
  - destruct (has_flag (flags CP) LKA), (lkaSteeringVariant LKA CP0 lka_steering);
      simpl; lia.
Qed.

(** ** Steering-command composer *)

(** The composer emits two frames, LFA on the ECU bus and then the LKAS
    frame on the camera bus, exactly when the car has the LKA-steering
    harness and this stack owns longitudinal control; the LKAS frame alone
    on that harness otherwise; and the LFA frame alone on the other
    harness. The LKAS frame is named [LKAS_ALT] under the alt flag. *)
Theorem steering_messages_frames (LKA ALT : Z) (CP : CarParams) (CAN : CanBus)
    (enabled lat_active : bool) (apply_torque : Q) :
  let msgs := create_steering_messages LKA ALT CP CAN enabled lat_active apply_torque in
  let lkas_msg := if has_flag (flags CP) ALT then "LKAS_ALT" else "LKAS" in
  (msg_name <$> msgs) =
    (if has_flag (flags CP) LKA
     then if openpilotLongitudinalControl CP then ["LFA"; lkas_msg] else [lkas_msg]
     else ["LFA"]) ∧
  length msgs = (if has_flag (flags CP) LKA && openpilotLongitudinalControl CP
                 then 2%nat else 1%nat) ∧
  Forall (λ m, msg_bus m = if decide (msg_name m = "LFA") then ECAN CAN else ACAN CAN)
    msgs.
Proof.
  unfold create_steering_messages. cbv zeta.
  destruct (has_flag (flags CP) LKA), (openpilotLongitudinalControl CP),
    (has_flag (flags CP) ALT); cbn [app fmap list_fmap andb length];
    (split; [reflexivity|]); (split; [reflexivity|]);
    repeat constructor.
Qed.

(** Every steering frame carries the requested torque, the steer-request
    flag and the icon state; the LFA frame has [NEW_SIGNAL_1] and no
    [LKA_AVAILABLE], the LKAS frame has [LKA_AVAILABLE] and no
    [NEW_SIGNAL_1]: the two variants do not leak into each other. *)
Theorem steering_messages_payload (LKA ALT : Z) (CP : CarParams) (CAN : CanBus)
    (enabled lat_active : bool) (apply_torque : Q) :
  Forall (λ m,
    msg_values m !! "TORQUE_REQUEST" = Some apply_torque ∧
    msg_values m !! "STEER_REQ" = Some (if lat_active then 1%Q else 0%Q) ∧
    msg_values m !! "LKA_ICON" = Some (if enabled then 2%Q else 1%Q) ∧
    msg_values m !! "LKA_MODE" = Some 2%Q ∧
    size (msg_values m) = 9%nat ∧
    (if decide (msg_name m = "LFA")
     then msg_values m !! "NEW_SIGNAL_1" = Some 0%Q ∧
          msg_values m !! "LKA_AVAILABLE" = None
     else msg_values m !! "LKA_AVAILABLE" = Some 0%Q ∧
          msg_values m !! "NEW_SIGNAL_1" = None))
    (create_steering_messages LKA ALT CP CAN enabled lat_active apply_torque).
Proof.
  unfold create_steering_messages. cbv zeta.
  destruct (has_flag (flags CP) LKA), (openpilotLongitudinalControl CP),
    (has_flag (flags CP) ALT); cbn [app];
    repeat (apply Forall_cons; split; [vm_compute; by repeat split|]);
    apply Forall_nil_2.
Qed.

(** With a bus object built from the car's own parameters, the last frame
    of the list, LKAS on the LKA-steering harness and LFA otherwise, is on
    bus [0 + busOffset], and an LFA frame that precedes an LKAS frame is on
    bus [1 + busOffset]. *)
Theorem steering_messages_buses (LKA ALT : Z) (CP : CarParams) (busOffset : Z)
    (enabled lat_active : bool) (apply_torque : Q) :
  let CAN := CanBus_init LKA (Some CP) busOffset None in
  let msgs := create_steering_messages LKA ALT CP CAN enabled lat_active apply_torque in
  (msg_bus <$> last msgs) = Some (0 + busOffset) ∧
  (msg_bus <$> msgs) =
    (if has_flag (flags CP) LKA && openpilotLongitudinalControl CP
     then [1 + busOffset; 0 + busOffset] else [0 + busOffset]).
Proof.
  unfold create_steering_messages, CanBus_init, lkaSteeringVariant. cbv zeta.
  destruct (has_flag (flags CP) LKA), (openpilotLongitudinalControl CP),
    (has_flag (flags CP) ALT); by cbn.
Qed.

(** ** Cluster icon and parking-assist composers *)

Lemma create_lfahda_cluster_icons (CAN : CanBus) (enabled : bool) :
  let m := create_lfahda_cluster CAN enabled in
  msg_name m = "LFAHDA_CLUSTER" ∧ msg_bus m = ECAN CAN ∧
  msg_values m = {[ "HDA_ICON" := if enabled then 1%Q else 0%Q ]} ∪
                 {[ "LFA_ICON" := if enabled then 2%Q else 0%Q ]}.
Proof.
  destruct enabled; by repeat split.
Qed.

(** The parking-assist composer always returns SPAS1 with no signal and
    then SPAS2, both on the ECU bus, whatever the cycle counter is; the
    blinker signal is 3 whenever the left blinker is on, the right blinker
    included, 4 for the right blinker alone and 0 for neither. *)
Theorem spas_messages_blinker (CAN : CanBus) (frame : Z) (left_blink right_blink : bool) :
  ∃ spas1 spas2,
    create_spas_messages CAN frame left_blink right_blink = [spas1; spas2] ∧
    create_spas_messages CAN 0 left_blink right_blink = [spas1; spas2] ∧
    msg_name spas1 = "SPAS1" ∧ msg_values spas1 = ∅ ∧
    msg_name spas2 = "SPAS2" ∧
    msg_bus spas1 = ECAN CAN ∧ msg_bus spas2 = ECAN CAN ∧
    msg_values spas2 = {[ "BLINKER_CONTROL" :=
      match left_blink, right_blink with
      | true, _ => 3%Q
      | false, true => 4%Q
      | false, false => 0%Q
      end ]}.
Proof.
  do 2 eexists. do 7 (split; [reflexivity|]).
  destruct left_blink, right_blink; by apply insert_empty.
Qed.

(** ** Missing signals and the signals a frame is made of *)

Lemma copy_fields_is_Some keys d :
  is_Some (copy_fields keys d) ↔ ∀ k, k ∈ keys → is_Some (d !! k).
Proof.
  split.
  - intros [r Hr] k Hk. destruct (d !! k) eqn:Hd; [by eexists|].
    by rewrite (copy_fields_None _ _ _ Hk Hd) in Hr.
  - intros H. destruct (copy_fields_Some _ _ H) as (r & Hr & _). by eexists.
Qed.

Lemma copy_fields_dom keys d r :
  copy_fields keys d = Some r → dom r = list_to_set keys.
Proof.
  revert r. induction keys as [|k ks IH]; simpl; intros r Hr.
  - injection Hr as <-. by rewrite dom_empty_L.
  - destruct (d !! k) as [v|]; [|done]. simpl in Hr.
    destruct (copy_fields ks d) as [r'|]; [|done]. injection Hr as <-.
    by rewrite dom_insert_L, (IH r').
Qed.

Lemma copy_fields_lookup keys d r k :
  copy_fields keys d = Some r → k ∈ keys → r !! k = d !! k.
Proof.
  intros Hr Hk.
  destruct (copy_fields_Some keys d) as (r' & Hr' & Hcopy & _).
  { apply copy_fields_is_Some. by eexists. }
  rewrite Hr in Hr'. injection Hr' as <-. by apply Hcopy.
Qed.

(** The suppressor returns a frame exactly when the snapshot carries the
    rolling counter and every data byte of the variant's range other than
    byte 7; one missing signal and no frame is built. *)
Theorem suppress_lfa_returns_iff (CAN : CanBus) (lfa_block_msg : gmap string Q)
    (lka_steering_alt : bool) :
  is_Some (create_suppress_lfa CAN lfa_block_msg lka_steering_alt) ↔
  is_Some (lfa_block_msg !! "COUNTER") ∧
  ∀ i, (3 ≤ i < msg_bytes lka_steering_alt)%nat → i ≠ 7%nat →
       is_Some (lfa_block_msg !! byte_key i).
Proof.
  unfold create_suppress_lfa.
  set (keys := byte_key <$> _).
  assert ((∀ k, k ∈ keys → is_Some (lfa_block_msg !! k)) ↔
          (∀ i, (3 ≤ i < msg_bytes lka_steering_alt)%nat → i ≠ 7%nat →
                is_Some (lfa_block_msg !! byte_key i))) as Hkeys.
  { split.
    - intros H i Hi Hne. apply H. by apply suppress_keys_elem.
    - intros H k Hk. apply list_elem_of_fmap_1 in Hk as (i & -> & Hi).
      assert (byte_key i ∈ keys) as Hin by (by apply list_elem_of_fmap_2).
      apply suppress_keys_elem in Hin as [? ?]. by apply H. }
  rewrite <- Hkeys, <- copy_fields_is_Some.
  destruct (copy_fields keys lfa_block_msg) as [r|]; simpl.
  - destruct (lfa_block_msg !! "COUNTER"); simpl; split.
    + intros _. split; by eexists.
    + intros _. by eexists.
    + by intros []%is_Some_None.
    + by intros [[]%is_Some_None _].
  - split; [by intros []%is_Some_None | by intros [_ []%is_Some_None]].
Qed.

(** The frame of the suppressor is made of the copied data bytes, the
    counter and the four zeroed signals and of nothing else: 25 signals, or
    33 for the alt variant. No other signal of the snapshot is forwarded. *)
Theorem suppress_lfa_signal_set (CAN : CanBus) (lfa_block_msg : gmap string Q)
    (lka_steering_alt : bool) (m : CanMsg) :
  create_suppress_lfa CAN lfa_block_msg lka_steering_alt = Some m →
  dom (msg_values m) = list_to_set (suppress_lfa_signals lka_steering_alt) ∧
  size (msg_values m) = (msg_bytes lka_steering_alt + 1)%nat ∧
  ∀ k, k ∉ suppress_lfa_signals lka_steering_alt → msg_values m !! k = None.
Proof.
  unfold create_suppress_lfa. intros Hm.
  destruct (copy_fields _ lfa_block_msg) as [r|] eqn:Hr; [|done]. simpl in Hm.
  destruct (lfa_block_msg !! "COUNTER") as [counter|]; [|done].
  injection Hm as <-. simpl.
  assert (dom (<["RIGHT_LANE_LINE":=0%Q]> (<["LEFT_LANE_LINE":=0%Q]>
            (<["SET_ME_0_2":=0%Q]> (<["SET_ME_0":=0%Q]> (<["COUNTER":=counter]> r)))))
          = list_to_set (suppress_lfa_signals lka_steering_alt)) as Hdom.
  { rewrite !dom_insert_L, (copy_fields_dom _ _ _ Hr).
    unfold suppress_lfa_signals. rewrite list_to_set_app_L. simpl.
    apply set_eq. intros x.
    rewrite !elem_of_union, !elem_of_singleton, elem_of_empty. tauto. }
  split; [done|]. split.
  - rewrite <- size_dom, Hdom. by destruct lka_steering_alt; vm_compute.
  - intros k Hk. apply not_elem_of_dom. rewrite Hdom. by rewrite elem_of_list_to_set.
Qed.

(** The cancel composer returns a frame exactly when the snapshot carries
    every signal of the variant's list, the copied [ACCMode] included
    although it is overwritten afterwards. *)
Theorem acc_cancel_returns_iff (SCC : Z) (CP : CarParams) (CAN : CanBus)
    (cruise_info_copy : gmap string Q) :
  (is_Some (create_acc_cancel SCC CP CAN cruise_info_copy) ↔
   ∀ k, k ∈ acc_cancel_fields (has_flag (flags CP) SCC) →
        is_Some (cruise_info_copy !! k)) ∧
  (cruise_info_copy !! "ACCMode" = None →
   create_acc_cancel SCC CP CAN cruise_info_copy = None).
Proof.
  unfold create_acc_cancel. split.
  - rewrite <- copy_fields_is_Some.
    destruct (copy_fields _ cruise_info_copy); simpl; [|done].
    split; intros _; by eexists.
  - intros Hmode.
    rewrite (copy_fields_None _ _ "ACCMode"); [done| |done].
    destruct (has_flag _ _); set_solver.
Qed.

(** ** More on the accel-command composer *)

(** The accel composer returns a frame exactly when [cruise_info] is
    absent or carries both object signals; a snapshot lacking one of them
    gives no frame. *)
Theorem acc_control_returns_iff (CAN : CanBus) (enabled : bool) (accel_last accel : Q)
    (stopping gas_override : bool) (set_speed : Q) (hud_control : HudControl)
    (cruise_info : option (gmap string Q)) :
  is_Some (create_acc_control CAN enabled accel_last accel stopping gas_override
             set_speed hud_control cruise_info) ↔
  cruise_info_ok cruise_info.
Proof.
  unfold create_acc_control, cruise_info_ok.
  destruct (negb enabled || gas_override), cruise_info as [ci|]; simpl;
    try (split; [done | by eexists]);
    destruct (ci !! "ACC_ObjDist"), (ci !! "ACC_ObjRelSpd"); simpl; split;
    first [ by intros []%is_Some_None
          | by intros [[]%is_Some_None _]
          | by intros [_ []%is_Some_None]
          | by (intros _; split; eexists)
          | by (intros _; eexists) ].
Qed.

(** The mode and the acceleration signals agree: mode 0 means disabled,
    mode 2 an enabled cycle under gas override, mode 1 an enabled cycle
    without; the raw request is transmitted in mode 1 only, and in modes 0
    and 2 both acceleration signals are zero. *)
Theorem acc_control_mode (CAN : CanBus) (enabled : bool) (accel_last accel : Q)
    (stopping gas_override : bool) (set_speed : Q) (hud_control : HudControl)
    (cruise_info : option (gmap string Q)) :
  cruise_info_ok cruise_info →
  ∃ m mode raw shaped,
    create_acc_control CAN enabled accel_last accel stopping gas_override
      set_speed hud_control cruise_info = Some m ∧
    msg_values m !! "ACCMode" = Some mode ∧
    msg_values m !! "aReqRaw" = Some raw ∧
    msg_values m !! "aReqValue" = Some shaped ∧
    (mode = 0%Q ∨ mode = 1%Q ∨ mode = 2%Q) ∧
    (mode = 0%Q ↔ enabled = false) ∧
    (mode = 2%Q ↔ enabled = true ∧ gas_override = true) ∧
    (mode = 1%Q → raw = accel) ∧
    (mode ≠ 1%Q → raw = 0%Q ∧ shaped = 0%Q).
Proof.
  intros Hok. unfold create_acc_control.
  destruct (create_acc_control_extra _ Hok) as (extra & -> & Hextra).
  destruct enabled, gas_override; cbn [negb orb mbind option_bind];
    eexists; eexists _, _, _; (split; [reflexivity|]);
    cbn [msg_values make_can_msg];
    do 3 (split; [acc_control_lookup Hextra|]); cbn [snd];
    repeat split; try done; try (intros [? ?]; done); auto.
Qed.

(** Only the two object signals depend on [cruise_info]: every other
    signal of the frame is what it is without a snapshot, also when the
    snapshot carries a signal of the same name. Without a snapshot the
    object distance is 1 and the relative speed is absent; with one, both
    are the snapshot's. *)
Theorem acc_control_object_signals (CAN : CanBus) (enabled : bool)
    (accel_last accel : Q) (stopping gas_override : bool) (set_speed : Q)
    (hud_control : HudControl) (cruise_info : option (gmap string Q)) :
  cruise_info_ok cruise_info →
  ∃ m m0,
    create_acc_control CAN enabled accel_last accel stopping gas_override
      set_speed hud_control cruise_info = Some m ∧
    create_acc_control CAN enabled accel_last accel stopping gas_override
      set_speed hud_control None = Some m0 ∧
    msg_name m = "SCC_CONTROL" ∧ msg_bus m = ECAN CAN ∧
    (∀ k, k ≠ "ACC_ObjDist" → k ≠ "ACC_ObjRelSpd" →
          msg_values m !! k = msg_values m0 !! k) ∧
    msg_values m0 !! "ACC_ObjDist" = Some 1%Q ∧
    msg_values m0 !! "ACC_ObjRelSpd" = None ∧
    match cruise_info with
    | Some ci => msg_values m !! "ACC_ObjDist" = ci !! "ACC_ObjDist" ∧
                 msg_values m !! "ACC_ObjRelSpd" = ci !! "ACC_ObjRelSpd"
    | None => m = m0
    end.
Proof.
  intros Hok. unfold create_acc_control.
  destruct cruise_info as [ci|].
  - destruct Hok as [[dist Hd] [spd Hs]]. rewrite Hd, Hs.
    destruct (negb enabled || gas_override); cbn [mbind option_bind];
      do 2 eexists; do 4 (split; [reflexivity|]); cbn [msg_values make_can_msg];
      (split; [|by repeat split]);
      intros k H1 H2;
      rewrite (lookup_update_None _ [("ACC_ObjDist", dist); ("ACC_ObjRelSpd", spd)])
        by (simpl; by rewrite !lookup_insert_ne);
      by rewrite (lookup_update_None _ [("ACC_ObjDist", 1%Q)])
        by (simpl; by rewrite !lookup_insert_ne).
  - destruct (negb enabled || gas_override); cbn [mbind option_bind];
      do 2 eexists; by repeat split.
Qed.

(** While engaged, and with the previous value a double, the band of the
    shaper contains the previous value and the shaped value lies between
    the previous value and the request: it never moves away from the
    request and never overshoots it. A request inside the band
    [[previous - j, previous + j]] (binary64 bounds, [j] the double 5/50)
    passes unchanged; a request above or below it is replaced by that edge
    of the band. *)
Theorem acc_control_shaper_steps (CAN : CanBus) (accel_last accel : Q)
    (stopping : bool) (set_speed : Q) (hud_control : HudControl)
    (cruise_info : option (gmap string Q)) :
  cruise_info_ok cruise_info →
  (fl accel_last == accel_last)%Q →
  let lo := fsub accel_last (fdiv 5 50) in
  let hi := fadd accel_last (fdiv 5 50) in
  ∃ m shaped,
    create_acc_control CAN true accel_last accel stopping false
      set_speed hud_control cruise_info = Some m ∧
    msg_values m !! "aReqValue" = Some shaped ∧
    (lo <= accel_last <= hi)%Q ∧
    (accel_last <= accel → accel_last <= shaped <= accel)%Q ∧
    (accel <= accel_last → accel <= shaped <= accel_last)%Q ∧
    (lo <= accel <= hi → shaped == accel)%Q ∧
    (hi < accel → shaped == hi)%Q ∧
    (accel < lo → shaped == lo)%Q.
Proof.
  intros Hok Hdouble lo hi. unfold create_acc_control.
  destruct (create_acc_control_extra _ Hok) as (extra & -> & Hextra).
  cbn [negb orb mbind option_bind].
  eexists. exists (np_clip accel lo hi).
  split; [reflexivity|]. cbn [msg_values make_can_msg].
  split; [acc_control_lookup Hextra|].
  pose proof (proj2 (proj2 jerk_per_cycle)) as Hjn.
  assert (lo <= accel_last)%Q as Hlo.
  { apply (Qle_trans _ (fl accel_last)); [|rewrite Hdouble; apply Qle_refl].
    apply (fl_mono (accel_last - fdiv 5 50) accel_last). lra. }
  assert (accel_last <= hi)%Q as Hhi.
  { apply (Qle_trans _ (fl accel_last)); [rewrite Hdouble; apply Qle_refl|].
    apply (fl_mono accel_last (accel_last + fdiv 5 50)). lra. }
  assert (lo <= hi)%Q as Hle by lra.
  pose proof (np_clip_clamped_to accel _ _ Hle) as Hc.
  set (shaped := np_clip accel lo hi) in *.
  clearbody shaped lo hi. clear Hjn Hdouble.
  unfold clamped_to in Hc.
  destruct (Qlt_bool accel lo) eqn:H1;
    [|destruct (Qlt_bool hi accel) eqn:H2];
    rewrite ?Qlt_bool_true, ?Qlt_bool_false in *;
    (split; [split; lra|]); (split; [intros; split; lra|]);
    (split; [intros; split; lra|]); (split; [intros [? ?]; lra|]);
    (split; intros; lra).
Qed.

(** ** More on the cluster overlay *)

(** Unfolds the overlay down to its two pages and names them. *)
Ltac ccnc_pages :=
  unfold create_ccnc; cbv zeta;
  destruct (openpilotLongitudinalControl _);
  cbn [fmap list_fmap foldl]; unfold make_can_msg;
  do 2 eexists; (split; [reflexivity|]); cbn [msg_name msg_bus msg_values].

(** Reads a signal that none of the stacked overwrites lists, the
    disequalities with their keys being among the assumptions. *)
Ltac overlay_skip :=
  repeat first
    [ rewrite lookup_update_if_None by (simpl; by rewrite ?lookup_insert_ne)
    | rewrite lookup_update_None by (simpl; by rewrite ?lookup_insert_ne)
    | rewrite lookup_insert_ne by done ].

(** Signals the overlay does not list pass through unchanged on both
    pages; without longitudinal control that includes the set-speed, the
    distance and the navigation signals of page A and the lead signal of
    page B. *)
Theorem ccnc_pass_through (K : Q) (CAN : CanBus) (CP : CarParams) (CC : CarControl)
    (CS : CarState) (lat_active : bool) :
  ∃ page_a page_b,
    create_ccnc K CAN CP CC CS lat_active = [page_a; page_b] ∧
    (∀ k, k ∉ ccnc_161_overlaid (openpilotLongitudinalControl CP) →
          msg_values page_a !! k = msg_161 CS !! k) ∧
    (∀ k, k ∉ ccnc_162_overlaid → msg_values page_b !! k = msg_162 CS !! k) ∧
    (openpilotLongitudinalControl CP = false →
     msg_values page_b !! "LEAD" = msg_162 CS !! "LEAD" ∧
     ∀ k, k ∈ ["SETSPEED"; "SETSPEED_HUD"; "SETSPEED_SPEED"; "DISTANCE";
               "DISTANCE_SPACING"; "DISTANCE_LEAD"; "DISTANCE_CAR"; "SLA_ICON";
               "NAV_ICON"] →
          msg_values page_a !! k = msg_161 CS !! k).
Proof.
  ccnc_pages.
  - split; [|split; [|done]].
    + intros k Hk. cbn [ccnc_161_overlaid app] in Hk.
      rewrite !not_elem_of_cons in Hk. destruct_and!.
      overlay_skip. reflexivity.
    + intros k Hk. unfold ccnc_162_overlaid in Hk.
      rewrite !not_elem_of_cons in Hk. destruct_and!.
      overlay_skip. reflexivity.
  - split; [|split; [|intros _; split]].
    + intros k Hk. cbn [ccnc_161_overlaid app] in Hk.
      rewrite !not_elem_of_cons in Hk. destruct_and!.
      overlay_skip. reflexivity.
    + intros k Hk. unfold ccnc_162_overlaid in Hk.
      rewrite !not_elem_of_cons in Hk. destruct_and!.
      overlay_skip. reflexivity.
    + overlay_skip. reflexivity.
    + intros k Hk. rewrite !elem_of_cons, elem_of_nil in Hk.
      destruct_or!; subst; overlay_skip; reflexivity.
Qed.

(** Page B: the five fault signals are zero whatever the snapshot holds;
    the vibrate signal is 1 when either lane departs and the snapshot's
    otherwise; the lead signal is zero under longitudinal control. *)
Theorem ccnc_page_b (K : Q) (CAN : CanBus) (CP : CarParams) (CC : CarControl)
    (CS : CarState) (lat_active : bool) :
  let hud := hudControl CC in
  ∃ page_a page_b,
    create_ccnc K CAN CP CC CS lat_active = [page_a; page_b] ∧
    msg_name page_b = "CCNC_0x162" ∧ msg_bus page_b = ECAN CAN ∧
    Forall (λ f, msg_values page_b !! f = Some 0%Q)
      ["FAULT_LSS"; "FAULT_HDA"; "FAULT_DAS"; "FAULT_LFA"; "FAULT_DAW"] ∧
    msg_values page_b !! "VIBRATE" =
      (if leftLaneDepart hud || rightLaneDepart hud
       then Some 1%Q else msg_162 CS !! "VIBRATE") ∧
    (openpilotLongitudinalControl CP = true → msg_values page_b !! "LEAD" = Some 0%Q).
Proof.
  intros hud. ccnc_pages; do 2 (split; [reflexivity|]).
  - split; [|split; [|intros _; by rewrite lookup_insert_eq]].
    + repeat (apply Forall_cons; split;
        [overlay_skip; by rewrite lookup_insert_eq|]). apply Forall_nil_2.
    + rewrite lookup_insert_ne by done. unfold update_if. fold hud.
      destruct (leftLaneDepart hud || rightLaneDepart hud).
      * apply lookup_update_Some. reflexivity.
      * overlay_skip. reflexivity.
  - split; [|split; [|discriminate]].
    + repeat (apply Forall_cons; split;
        [overlay_skip; by rewrite lookup_insert_eq|]). apply Forall_nil_2.
    + unfold update_if. fold hud.
      destruct (leftLaneDepart hud || rightLaneDepart hud).
      * apply lookup_update_Some. reflexivity.
      * overlay_skip. reflexivity.
Qed.

Lemma get_eq_ext d d' k c : d !! k = d' !! k → get_eq d k c = get_eq d' k c.
Proof. unfold get_eq. by intros ->. Qed.

Lemma get_in_ext d d' k cs : d !! k = d' !! k → get_in d k cs = get_in d' k cs.
Proof. unfold get_in. by intros ->. Qed.

(** A guarded overwrite of the signal it tests. *)
Lemma lookup_update_if_eq d k c blank :
  update_if (λ d, get_eq d k c) [(k, blank)] d !! k
  = suppress_codes [c] blank <$> d !! k.
Proof.
  unfold update_if, get_eq, suppress_codes.
  destruct (d !! k) as [v|] eqn:Hv; simpl; [|done].
  rewrite orb_false_r. destruct (Qeq_bool v c); [|done].
  by rewrite lookup_insert_eq.
Qed.

Lemma lookup_update_if_in d k cs blank :
  update_if (λ d, get_in d k cs) [(k, blank)] d !! k
  = suppress_codes cs blank <$> d !! k.
Proof.
  unfold update_if, get_in, suppress_codes.
  destruct (d !! k) as [v|] eqn:Hv; simpl; [|done].
  destruct (existsb (Qeq_bool v) cs); [|done].
  by rewrite lookup_insert_eq.
Qed.

(** What the alert rules leave on page A, read off the snapshot. *)
Lemma create_ccnc_alerts (K : Q) (CAN : CanBus) (CP : CarParams) (CC : CarControl)
    (CS : CarState) (lat_active : bool) :
  let snap := msg_161 CS in
  let long := openpilotLongitudinalControl CP in
  ∃ page_a page_b,
    create_ccnc K CAN CP CC CS lat_active = [page_a; page_b] ∧
    msg_values page_a !! "ALERTS_5" =
      suppress_codes [5%Q] 0 <$> (suppress_codes [4%Q] 0 <$>
        (suppress_codes [2%Q] 0 <$> snap !! "ALERTS_5")) ∧
    msg_values page_a !! "ALERTS_3" =
      (if long
       then suppress_codes [1%Q; 2%Q; 3%Q; 4%Q; 7%Q; 8%Q; 9%Q; 10%Q] 0 <$>
              (suppress_codes [17%Q] 0 <$> snap !! "ALERTS_3")
       else suppress_codes [17%Q] 0 <$> snap !! "ALERTS_3") ∧
    msg_values page_a !! "ALERTS_2" = suppress_codes [5%Q] 0 <$> snap !! "ALERTS_2" ∧
    msg_values page_a !! "SOUNDS_2" =
      (if get_eq snap "ALERTS_2" 5 then Some 0%Q else snap !! "SOUNDS_2") ∧
    msg_values page_a !! "SOUNDS_4" =
      (if get_eq snap "SOUNDS_4" 2 && get_in snap "LFA_ICON" [3%Q; 0%Q]
       then Some 0%Q else snap !! "SOUNDS_4") ∧
    msg_values page_a !! "NAV_ICON" =
      (if long then suppress_codes [2%Q; 4%Q] 1 <$> snap !! "NAV_ICON"
       else snap !! "NAV_ICON").
Proof.
  intros snap long. subst long. ccnc_pages; fold snap.
  all: split; [overlay_skip; rewrite !lookup_update_if_eq; by overlay_skip|].
  all: split;
    [overlay_skip; rewrite ?lookup_update_if_in; overlay_skip;
     rewrite lookup_update_if_eq; by overlay_skip|].
  all: split; [overlay_skip; unfold update_if at 1;
               rewrite (get_eq_ext _ snap) by (by overlay_skip);
               unfold get_eq, suppress_codes;
               destruct (snap !! "ALERTS_2") as [v|] eqn:Hv; simpl;
               [rewrite orb_false_r; destruct (Qeq_bool v 5);
                 [overlay_skip; by rewrite lookup_insert_eq|]|];
               by overlay_skip|].
  all: split; [overlay_skip; unfold update_if at 1;
               rewrite (get_eq_ext _ snap) by (by overlay_skip);
               destruct (get_eq snap "ALERTS_2" 5);
               [by apply lookup_update_Some | by overlay_skip]|].
  all: split; [overlay_skip; unfold update_if at 1;
               rewrite (get_eq_ext _ snap), (get_in_ext _ snap) by (by overlay_skip);
               destruct (get_eq snap "SOUNDS_4" 2 && get_in snap "LFA_ICON" [3%Q; 0%Q]);
               [by apply lookup_update_Some | by overlay_skip]|].
  - rewrite lookup_update_if_in. by overlay_skip.
  - by overlay_skip.
Qed.

Lemma existsb_Qeq_false v cs :
  existsb (Qeq_bool v) cs = false ↔ Forall (λ c, ¬ (v == c)%Q) cs.
Proof.
  induction cs as [|c cs IH]; simpl.
  - split; [intros _; apply Forall_nil_2 | done].
  - rewrite orb_false_iff, Forall_cons, IH, <- not_true_iff_false, Qeq_bool_iff.
    tauto.
Qed.

Lemma suppress_codes_drops cs blank v :
  existsb (Qeq_bool blank) cs = false →
  existsb (Qeq_bool (suppress_codes cs blank v)) cs = false.
Proof.
  intros Hb. unfold suppress_codes.
  by destruct (existsb (Qeq_bool v) cs) eqn:Hv.
Qed.

Lemma suppress_codes_keeps cs cs' blank v :
  existsb (Qeq_bool blank) cs' = false →
  existsb (Qeq_bool v) cs' = false →
  existsb (Qeq_bool (suppress_codes cs blank v)) cs' = false.
Proof.
  intros Hb Hv. unfold suppress_codes.
  by destruct (existsb (Qeq_bool v) cs).
Qed.

(** Two rules that blank to the same value amount to one rule on the
    codes of both, as long as the blank is not itself a code of the second. *)
Lemma suppress_codes_app cs1 cs2 blank v :
  existsb (Qeq_bool blank) cs2 = false →
  suppress_codes cs2 blank (suppress_codes cs1 blank v)
  = suppress_codes (cs1 ++ cs2) blank v.
Proof.
  intros Hb. unfold suppress_codes. rewrite existsb_app.
  destruct (existsb (Qeq_bool v) cs1); simpl; [by rewrite Hb | done].
Qed.

(** The alert rules of page A, each read off the snapshot alone: the
    alert codes 2, 4, 5 of ALERTS_5, 17 of ALERTS_3 (and 1, 2, 3, 4, 7, 8,
    9, 10 under longitudinal control) and 5 of ALERTS_2 become 0, the
    navigation codes 2 and 4 become 1 under longitudinal control, the
    sound of the break alert is cleared with it, the LFA beep is cleared
    while the snapshot's LFA icon is 3 or 0, and every other value of these
    signals is left as it is. *)
Theorem ccnc_alert_rules (K : Q) (CAN : CanBus) (CP : CarParams) (CC : CarControl)
    (CS : CarState) (lat_active : bool) :
  let snap := msg_161 CS in
  let long := openpilotLongitudinalControl CP in
  ∃ page_a page_b,
    create_ccnc K CAN CP CC CS lat_active = [page_a; page_b] ∧
    msg_values page_a !! "ALERTS_5" =
      suppress_codes [2%Q; 4%Q; 5%Q] 0 <$> snap !! "ALERTS_5" ∧
    msg_values page_a !! "ALERTS_3" =
      suppress_codes
        (17%Q :: if long then [1%Q; 2%Q; 3%Q; 4%Q; 7%Q; 8%Q; 9%Q; 10%Q] else []) 0
        <$> snap !! "ALERTS_3" ∧
    msg_values page_a !! "ALERTS_2" = suppress_codes [5%Q] 0 <$> snap !! "ALERTS_2" ∧
    msg_values page_a !! "SOUNDS_2" =
      (if get_eq snap "ALERTS_2" 5 then Some 0%Q else snap !! "SOUNDS_2") ∧
    msg_values page_a !! "SOUNDS_4" =
      (if get_eq snap "SOUNDS_4" 2 && get_in snap "LFA_ICON" [3%Q; 0%Q]
       then Some 0%Q else snap !! "SOUNDS_4") ∧
    msg_values page_a !! "NAV_ICON" =
      (if long then suppress_codes [2%Q; 4%Q] 1 <$> snap !! "NAV_ICON"
       else snap !! "NAV_ICON").
Proof.
  intros snap long.
  destruct (create_ccnc_alerts K CAN CP CC CS lat_active)
    as (page_a & page_b & Hpages & H5 & H3 & H2 & Hs2 & Hs4 & Hnav).
  exists page_a, page_b. split; [done|].
  split; [|split; [|done]].
  - rewrite H5. fold snap. destruct (snap !! "ALERTS_5") as [v|]; [|done].
    simpl. by rewrite !suppress_codes_app.
  - rewrite H3. fold snap long. destruct long, (snap !! "ALERTS_3") as [v|]; try done.
    simpl. by rewrite suppress_codes_app.
Qed.

(** Page A never shows a suppressed code: whatever the snapshot holds,
    ALERTS_5 is not 2, 4 or 5, ALERTS_3 is not 17, ALERTS_2 is not 5, and
    under longitudinal control ALERTS_3 is none of 1, 2, 3, 4, 7, 8, 9, 10
    and NAV_ICON is neither 2 nor 4. *)
Theorem ccnc_suppressed_codes_never_shown (K : Q) (CAN : CanBus) (CP : CarParams)
    (CC : CarControl) (CS : CarState) (lat_active : bool) :
  ∃ page_a page_b,
    create_ccnc K CAN CP CC CS lat_active = [page_a; page_b] ∧
    (∀ v, msg_values page_a !! "ALERTS_5" = Some v →
          Forall (λ c, ¬ (v == c)%Q) [2%Q; 4%Q; 5%Q]) ∧
    (∀ v, msg_values page_a !! "ALERTS_3" = Some v → ¬ (v == 17)%Q) ∧
    (∀ v, msg_values page_a !! "ALERTS_2" = Some v → ¬ (v == 5)%Q) ∧
    (openpilotLongitudinalControl CP = true →
     (∀ v, msg_values page_a !! "ALERTS_3" = Some v →
           Forall (λ c, ¬ (v == c)%Q) [1%Q; 2%Q; 3%Q; 4%Q; 7%Q; 8%Q; 9%Q; 10%Q]) ∧
     (∀ v, msg_values page_a !! "NAV_ICON" = Some v →
           Forall (λ c, ¬ (v == c)%Q) [2%Q; 4%Q])).
Proof.
  destruct (create_ccnc_alerts K CAN CP CC CS lat_active)
    as (page_a & page_b & Hpages & H5 & H3 & H2 & _ & _ & Hnav).
  exists page_a, page_b. split; [done|].
  split; [|split; [|split]].
  - intros v. rewrite H5. destruct (msg_161 CS !! "ALERTS_5") as [v0|]; [|done].
    intros [= <-]. apply existsb_Qeq_false.
    change [2%Q; 4%Q; 5%Q] with ([2%Q] ++ [4%Q] ++ [5%Q]).
    rewrite !existsb_app, !orb_false_iff. repeat split.
    + do 2 (apply suppress_codes_keeps; [done|]). by apply suppress_codes_drops.
    + apply suppress_codes_keeps; [done|]. by apply suppress_codes_drops.
    + by apply suppress_codes_drops.
  - intros v. rewrite H3.
    destruct (openpilotLongitudinalControl CP),
      (msg_161 CS !! "ALERTS_3") as [v0|]; try done; intros [= <-].
    + assert (existsb (Qeq_bool (suppress_codes
                [1%Q; 2%Q; 3%Q; 4%Q; 7%Q; 8%Q; 9%Q; 10%Q] 0
                (suppress_codes [17%Q] 0 v0))) [17%Q] = false) as H
        by (apply suppress_codes_keeps; [done|]; by apply suppress_codes_drops).
      apply existsb_Qeq_false, Forall_cons in H. tauto.
    + assert (existsb (Qeq_bool (suppress_codes [17%Q] 0 v0)) [17%Q] = false) as H
        by (by apply suppress_codes_drops).
      apply existsb_Qeq_false, Forall_cons in H. tauto.
  - intros v. rewrite H2. destruct (msg_161 CS !! "ALERTS_2") as [v0|]; [|done].
    intros [= <-].
    assert (existsb (Qeq_bool (suppress_codes [5%Q] 0 v0)) [5%Q] = false) as H
      by (by apply suppress_codes_drops).
    apply existsb_Qeq_false, Forall_cons in H. tauto.
  - intros Hlong. rewrite Hlong in H3, Hnav. split; intros v.
    + rewrite H3. destruct (msg_161 CS !! "ALERTS_3") as [v0|]; [|done].
      intros [= <-]. apply existsb_Qeq_false. by apply suppress_codes_drops.
    + rewrite Hnav. destruct (msg_161 CS !! "NAV_ICON") as [v0|]; [|done].
      intros [= <-]. apply existsb_Qeq_false. by apply suppress_codes_drops.
Qed.

(** Under longitudinal control the set-speed signal is an integer of at
    most 100: within a half of the binary64 product of the cruise speed and
    the conversion factor when that rounds to at most 100, and on a metric
    car showing an integral cruise speed of at most 100 that very speed. *)
Theorem ccnc_setspeed_bounded (K : Q) (CAN : CanBus) (CP : CarParams)
    (CC : CarControl) (CS : CarState) (lat_active : bool) :
  openpilotLongitudinalControl CP = true →
  let converted := fmul (vCruiseCluster (out CS)) (if is_metric CS then 1%Q else K) in
  ∃ page_a page_b shown,
    create_ccnc K CAN CP CC CS lat_active = [page_a; page_b] ∧
    msg_values page_a !! "SETSPEED_SPEED" = Some (inject_Z shown) ∧
    shown ≤ 100 ∧
    (py_round converted ≤ 100 →
     (inject_Z shown - (1 # 2) <= converted <= inject_Z shown + (1 # 2))%Q) ∧
    (∀ n, is_metric CS = true → (vCruiseCluster (out CS) == inject_Z n)%Q →
          - 2 ^ 53 < n ≤ 100 → shown = n).
Proof.
  intros Hlong converted.
  destruct (create_ccnc_pages K CAN CP CC CS lat_active)
    as (page_a & page_b & Hpages & _ & _ & _ & _ & _ & _ & Hspeed).
  specialize (Hspeed Hlong). cbv zeta in Hspeed. fold converted in Hspeed.
  exists page_a, page_b, (if 100 <? py_round converted then 25 else py_round converted).
  split; [exact Hpages|]. split; [|split; [|split]].
  - rewrite Hspeed. by destruct (100 <? py_round converted).
  - destruct (100 <? py_round converted) eqn:Hs; [lia | by apply Z.ltb_ge].
  - intros Hs. apply Z.ltb_ge in Hs. rewrite Hs. apply py_round_near.
  - intros n Hmetric Hv Hn.
    assert (py_round converted = n) as ->.
    { apply py_round_integer. subst converted. rewrite Hmetric. unfold fmul.
      rewrite <- (fl_integer n) by lia. apply fl_comp. rewrite Hv. ring. }
    by rewrite (proj2 (Z.ltb_ge 100 n) (proj2 Hn)).
Qed.

Lemma laneline_cases (visible depart active blind_or_slow : bool) :
  let line := if negb visible then 1%Q else if depart then 4%Q else
              if negb active then 0%Q else if blind_or_slow then 2%Q else 6%Q in
  let centerline := if active then 1%Q else 0%Q in
  line ∈ [0%Q; 1%Q; 2%Q; 4%Q; 6%Q] ∧
  (line = 2%Q ∨ line = 6%Q → centerline = 1%Q) ∧
  (line = 0%Q → centerline = 0%Q).
Proof.
  destruct visible, depart, active, blind_or_slow; simpl;
    (split; [set_solver|]); split; intros; destruct_or?; done.
Qed.

Lemma create_ccnc_icons (K : Q) (CAN : CanBus) (CP : CarParams) (CC : CarControl)
    (CS : CarState) (lat_active : bool) :
  ∃ page_a page_b,
    create_ccnc K CAN CP CC CS lat_active = [page_a; page_b] ∧
    msg_values page_a !! "CENTERLINE"
      = Some (if lat_active || enabled CC then 1%Q else 0%Q) ∧
    msg_values page_a !! "LFA_ICON"
      = Some (if lat_active || enabled CC then 2%Q else 1%Q) ∧
    msg_values page_a !! "LKA_ICON" = Some 0%Q ∧
    msg_values page_a !! "DAW_ICON" = Some 0%Q.
Proof. ccnc_pages; (split; [|split; [|split]]); overlay_lookup. Qed.

(** Page A keeps its lane picture consistent: the lane-keep and
    departure-warning icons are 0; the centerline is 1 with LFA icon 2 when
    lateral-active or enabled and 0 with LFA icon 1 otherwise; each
    lane-line signal is one of 0, 1, 2, 4, 6, the values 2 and 6 appear
    only with the centerline and 0 only without it. *)
Theorem ccnc_lane_picture (K : Q) (CAN : CanBus) (CP : CarParams)
    (CC : CarControl) (CS : CarState) (lat_active : bool) :
  let active := lat_active || enabled CC in
  ∃ page_a page_b left right centerline,
    create_ccnc K CAN CP CC CS lat_active = [page_a; page_b] ∧
    msg_values page_a !! "LANELINE_LEFT" = Some left ∧
    msg_values page_a !! "LANELINE_RIGHT" = Some right ∧
    msg_values page_a !! "CENTERLINE" = Some centerline ∧
    centerline = (if active then 1%Q else 0%Q) ∧
    msg_values page_a !! "LFA_ICON" = Some (if active then 2%Q else 1%Q) ∧
    msg_values page_a !! "LKA_ICON" = Some 0%Q ∧
    msg_values page_a !! "DAW_ICON" = Some 0%Q ∧
    Forall (λ line, line ∈ [0%Q; 1%Q; 2%Q; 4%Q; 6%Q] ∧
                    (line = 2%Q ∨ line = 6%Q → centerline = 1%Q) ∧
                    (line = 0%Q → centerline = 0%Q)) [left; right].
Proof.
  intros active.
  destruct (create_ccnc_pages K CAN CP CC CS lat_active)
    as (page_a & page_b & Hpages & _ & _ & _ & _ & Hleft & Hright & _).
  cbv zeta in Hleft, Hright. fold active in Hleft, Hright.
  exists page_a, page_b. do 3 eexists.
  split; [exact Hpages|]. split; [exact Hleft|]. split; [exact Hright|].
  destruct (create_ccnc_icons K CAN CP CC CS lat_active)
    as (page_a' & page_b' & Hpages' & Hc & Hicon & Hlka & Hdaw).
  rewrite Hpages in Hpages'. injection Hpages' as <- <-.
  fold active in Hc, Hicon.
  split; [exact Hc|]. split; [reflexivity|]. do 3 (split; [done|]).
  apply Forall_cons. split; [apply laneline_cases|].
  apply Forall_cons. split; [apply laneline_cases|]. apply Forall_nil_2.
Qed.

(** ** More on the cadence multiplexer *)

Lemma adrv_messages_period_aux (CAN : CanBus) (frame k : Z) :
  create_adrv_messages CAN (frame + 100 * k) = create_adrv_messages CAN frame.
Proof.
  unfold create_adrv_messages, create_fca_warning_light. cbv zeta.
  assert (∀ d q, 100 = q * d → (frame + 100 * k) mod d = frame mod d) as Hmod.
  { intros d q ->. replace (q * d * k) with (q * k * d) by lia.
    apply Z_mod_plus_full. }
  by rewrite (Hmod 2 50), (Hmod 5 20), (Hmod 20 5), (Hmod 100 1).
Qed.

(** The schedule repeats every 100 cycles, for negative counters too, and
    the fault light every 2 cycles. *)
Theorem adrv_messages_period (CAN : CanBus) (frame k : Z) :
  create_adrv_messages CAN (frame + 100 * k) = create_adrv_messages CAN frame ∧
  create_fca_warning_light CAN (frame + 2 * k) = create_fca_warning_light CAN frame.
Proof.
  unfold create_adrv_messages, create_fca_warning_light. cbv zeta.
  assert (∀ d q, 100 = q * d → (frame + 100 * k) mod d = frame mod d) as Hmod.
  { intros d q ->. replace (q * d * k) with (q * k * d) by lia.
    apply Z_mod_plus_full. }
  rewrite (Hmod 2 50), (Hmod 5 20), (Hmod 20 5), (Hmod 100 1) by done.
  split; [done|].
  replace (2 * k) with (k * 2) by lia. by rewrite Z_mod_plus_full.
Qed.

(** Within one cycle the frames come in one fixed order and no message is
    sent twice: the names are a sublist of the full schedule, which is sent
    whole on the multiples of 100; the keep-alive always comes first; a
    cycle that is a multiple of neither 2 nor 5 sends the keep-alive alone. *)
Theorem adrv_messages_order (CAN : CanBus) (frame : Z) :
  let names := msg_name <$> create_adrv_messages CAN frame in
  let schedule :=
    ["ADRV_0x51"; "ADRV_0x160"; "ADRV_0x1ea"; "ADRV_0x200"; "ADRV_0x345"; "ADRV_0x1da"] in
  names `sublist_of` schedule ∧
  NoDup names ∧
  head names = Some "ADRV_0x51" ∧
  (1 ≤ length names ≤ 6)%nat ∧
  (frame mod 100 = 0 → names = schedule) ∧
  (frame mod 2 ≠ 0 → frame mod 5 ≠ 0 → names = ["ADRV_0x51"]).
Proof.
  intros names schedule.
  assert (names `sublist_of` schedule) as Hsub.
  { subst names schedule. unfold create_adrv_messages, create_fca_warning_light.
    cbv zeta.
    destruct (frame mod 2 =? 0), (frame mod 5 =? 0), (frame mod 20 =? 0),
      (frame mod 100 =? 0); cbn [app fmap list_fmap msg_name make_can_msg];
      repeat first [apply sublist_nil | apply sublist_skip | apply sublist_cons]. }
  split; [done|]. split.
  { apply (sublist_NoDup _ schedule); [|done].
    apply (bool_decide_unpack _). by vm_compute. }
  assert (∀ n d q, n = q * d → n ≠ 0 → frame mod n = 0 → frame mod d = 0) as Hdiv.
  { intros n d q -> Hz H. apply Zmod_divides in H as [c ->]; [|done].
    replace (q * d * c) with (q * c * d) by lia. apply Z_mod_mult. }
  pose proof (Hdiv 100 20 5 eq_refl ltac:(done)) as H100.
  pose proof (Hdiv 20 5 4 eq_refl ltac:(done)) as H20_5.
  pose proof (Hdiv 20 2 10 eq_refl ltac:(done)) as H20_2.
  clear Hdiv Hsub.
  subst names. unfold create_adrv_messages, create_fca_warning_light. cbv zeta.
  destruct (Z.eqb_spec (frame mod 2) 0), (Z.eqb_spec (frame mod 5) 0),
    (Z.eqb_spec (frame mod 20) 0), (Z.eqb_spec (frame mod 100) 0);
    cbn [app fmap list_fmap msg_name make_can_msg head length];
    (split; [done|]); (split; [lia|]);
    (split; [intros ?|intros ? ?]); first [done | exfalso; tauto].
Qed.

Lemma count_msg_app name l1 l2 :
  count_msg name (l1 ++ l2) = (count_msg name l1 + count_msg name l2)%nat.
Proof. unfold count_msg. by rewrite filter_app, length_app. Qed.

Lemma adrv_window_cons CAN start len :
  adrv_window CAN start (S len)
  = create_adrv_messages CAN start ++ adrv_window CAN (start + 1) len.
Proof.
  unfold adrv_window. rewrite seqZ_cons by lia.
  replace (Z.pred (Z.of_nat (S len))) with (Z.of_nat len) by lia.
  by replace (Z.succ start) with (start + 1) by lia.
Qed.

Lemma adrv_window_snoc CAN start len :
  adrv_window CAN start (S len)
  = adrv_window CAN start len ++ create_adrv_messages CAN (start + Z.of_nat len).
Proof.
  unfold adrv_window. rewrite seqZ_S, fmap_app, join_app. simpl.
  by rewrite (right_id_L [] (++)).
Qed.

(** Sliding a window of 100 cycles by one cycle changes no count. *)
Lemma adrv_window_slide CAN name start :
  count_msg name (adrv_window CAN (start + 1) 100)
  = count_msg name (adrv_window CAN start 100).
Proof.
  pose proof (adrv_window_cons CAN start 100) as Hc.
  rewrite adrv_window_snoc in Hc.
  apply (f_equal (count_msg name)) in Hc. rewrite !count_msg_app in Hc.
  replace (start + Z.of_nat 100) with (start + 100 * 1) in Hc by lia.
  rewrite (adrv_messages_period_aux CAN start 1) in Hc. lia.
Qed.

Lemma adrv_window_any_start CAN name start :
  count_msg name (adrv_window CAN start 100) = count_msg name (adrv_window CAN 0 100).
Proof.
  assert (∀ n : nat,
    count_msg name (adrv_window CAN (Z.of_nat n) 100)
      = count_msg name (adrv_window CAN 0 100) ∧
    count_msg name (adrv_window CAN (- Z.of_nat n) 100)
      = count_msg name (adrv_window CAN 0 100)) as H.
  { induction n as [|n [IHp IHn]]; [done|]. split.
    - replace (Z.of_nat (S n)) with (Z.of_nat n + 1) by lia.
      by rewrite adrv_window_slide.
    - rewrite <- IHn, <- (adrv_window_slide CAN name (- Z.of_nat (S n))).
      by replace (- Z.of_nat (S n) + 1) with (- Z.of_nat n) by lia. }
  destruct (Z.le_ge_cases 0 start) as [Hs|Hs].
  - rewrite <- (Z2Nat.id start Hs). apply H.
  - replace start with (- Z.of_nat (Z.to_nat (- start))) by lia. apply H.
Qed.

(** The cadence holds from any starting cycle: every 100 consecutive
    cycles carry 100 keep-alive frames, 50 fault-light frames, 20 of each
    5-multiple frame, 5 of the 20-multiple frame and 1 of the 100-multiple
    frame, 196 frames in all. *)
Theorem adrv_cadence_any_window (CAN : CanBus) (start : Z) :
  let msgs := adrv_window CAN start 100 in
  count_msg "ADRV_0x51" msgs = 100%nat ∧
  count_msg "ADRV_0x160" msgs = 50%nat ∧
  count_msg "ADRV_0x1ea" msgs = 20%nat ∧
  count_msg "ADRV_0x200" msgs = 20%nat ∧
  count_msg "ADRV_0x345" msgs = 5%nat ∧
  count_msg "ADRV_0x1da" msgs = 1%nat.
Proof.
  cbv zeta. rewrite !(adrv_window_any_start CAN _ start).
  repeat split; by vm_compute.
Qed.

(** ** Concrete runs of the further properties *)

Lemma suppress_lfa_signal_set_witness :
  ∃ m, create_suppress_lfa sample_CAN sample_lfa_block_msg false = Some m ∧
       size (msg_values m) = 25%nat ∧
       sample_lfa_block_msg !! "BYTE24" = Some 24%Q ∧
       msg_values m !! "BYTE24" = None ∧
       msg_values m !! "BYTE2" = None.
Proof.
  destruct (create_suppress_lfa sample_CAN sample_lfa_block_msg false) as [m|] eqn:Hm;
    [|vm_compute in Hm; discriminate].
  destruct (suppress_lfa_signal_set sample_CAN sample_lfa_block_msg false m Hm)
    as (_ & Hsize & Hout).
  exists m. split; [reflexivity|]. split; [exact Hsize|]. split; [reflexivity|].
  split; apply Hout; apply (bool_decide_unpack _); by vm_compute.
Defined.

Lemma acc_control_mode_witness :
  cruise_info_ok None ∧
  ∃ m, create_acc_control sample_CAN true 0 2 false true 30 sample_hud None = Some m ∧
       msg_values m !! "ACCMode" = Some 2%Q ∧
       msg_values m !! "aReqRaw" = Some 0%Q ∧
       msg_values m !! "aReqValue" = Some 0%Q.
Proof.
  split; [exact I|].
  destruct (acc_control_mode sample_CAN true 0 2 false true 30 sample_hud None I)
    as (m & mode & raw & shaped & Hm & Hmode & Hraw & Hshaped & _ & _ & H2 & _ & Hzero).
  assert (mode = 2%Q) as -> by (by apply H2).
  destruct Hzero as [-> ->]; [done|].
  by exists m.
Defined.

Lemma sample_cruise_status_ok : cruise_info_ok (Some sample_cruise_status).
Proof. split; by eexists. Qed.

Lemma acc_control_object_signals_witness :
  cruise_info_ok (Some sample_cruise_status) ∧
  sample_cruise_status !! "aReqValue" = Some 9%Q ∧
  ∃ m, create_acc_control sample_CAN false 0 2 false false 30 sample_hud
         (Some sample_cruise_status) = Some m ∧
       msg_values m !! "aReqValue" = Some 0%Q ∧
       msg_values m !! "ACC_ObjDist" = Some 40%Q ∧
       msg_values m !! "ACC_ObjRelSpd" = Some (-2)%Q.
Proof.
  split; [exact sample_cruise_status_ok|]. split; [reflexivity|].
  destruct (acc_control_object_signals sample_CAN false 0 2 false false 30 sample_hud
              (Some sample_cruise_status) sample_cruise_status_ok)
    as (m & m0 & Hm & Hm0 & _ & _ & Hsame & _ & _ & Hdist & Hspd).
  exists m. split; [exact Hm|]. split; [|split].
  - rewrite (Hsame "aReqValue") by done. by injection Hm0 as <-.
  - by rewrite Hdist.
  - by rewrite Hspd.
Defined.

Lemma acc_control_shaper_steps_witness :
  cruise_info_ok None ∧ (fl double_0_2 == double_0_2)%Q ∧
  (fadd double_0_2 (fdiv 5 50) < 2)%Q ∧
  ∃ m shaped,
    create_acc_control sample_CAN true double_0_2 2 false false 30 sample_hud None
      = Some m ∧
    msg_values m !! "aReqValue" = Some shaped ∧
    (shaped == fadd double_0_2 (fdiv 5 50))%Q.
Proof.
  assert (fl double_0_2 == double_0_2)%Q as Hdouble by (by vm_compute).
  assert (fadd double_0_2 (fdiv 5 50) < 2)%Q as Hfar by (by vm_compute).
  split; [exact I|]. split; [exact Hdouble|]. split; [exact Hfar|].
  destruct (acc_control_shaper_steps sample_CAN double_0_2 2 false 30 sample_hud None
              I Hdouble)
    as (m & shaped & Hm & Hshaped & _ & _ & _ & _ & Hstep & _).
  exists m, shaped. split; [exact Hm|]. split; [exact Hshaped|]. exact (Hstep Hfar).
Defined.

Lemma ccnc_setspeed_bounded_witness :
  openpilotLongitudinalControl sample_CP = true ∧
  ∃ page_a page_b shown,
    create_ccnc sample_KPH_TO_MPH sample_CAN sample_CP sample_CC (sample_CS 60) true
      = [page_a; page_b] ∧
    msg_values page_a !! "SETSPEED_SPEED" = Some (inject_Z shown) ∧
    shown = 60.
Proof.
  split; [reflexivity|].
  destruct (ccnc_setspeed_bounded sample_KPH_TO_MPH sample_CAN sample_CP sample_CC
              (sample_CS 60) true eq_refl)
    as (page_a & page_b & shown & Hpages & Hshown & _ & _ & Hmetric).
  exists page_a, page_b, shown. split; [exact Hpages|]. split; [exact Hshown|].
  apply Hmetric; [reflexivity | reflexivity | by vm_compute].
Defined.
